(** * Conversation session manager of the XrozenAI chat page

    A shallow embedding of [src/pages/XrozenAI.tsx]: the component state
    held by the React hooks, the asynchronous handlers [loadConversations],
    [loadMessages], [deleteConversation] and [sendMessage], and the string
    operations they rely on ([String.prototype.trim], [slice], the
    [__ACTION_DATA__] regular expression). *)

From Stdlib Require Import List Bool Arith NArith ZArith Lia.
From Stdlib Require Import Ascii String DecimalString.
Import ListNotations.

(** ** JavaScript strings *)

(** A JavaScript string is a sequence of UTF-16 code units. *)
Module JsString.

Definition t : Type := list N.

(** A literal made of ASCII characters. *)
Definition lit (s : string) : t := map N_of_ascii (list_ascii_of_string s).

Definition eqb (a b : t) : bool := if list_eq_dec N.eq_dec a b then true else false.

(** [!s] holds of the empty string only. *)
Definition falsy (s : t) : bool := match s with [] => true | _ :: _ => false end.

(** ECMAScript LineTerminator: LF, CR, LS, PS. *)
Definition is_line_terminator (c : N) : bool :=
  (c =? 10)%N || (c =? 13)%N || (c =? 8232)%N || (c =? 8233)%N.

(** ECMAScript WhiteSpace (TAB, VT, FF, ZWNBSP and category Zs) together
    with LineTerminator: what [trim] removes. *)
Definition is_white_space (c : N) : bool :=
  (c =? 9)%N || (c =? 11)%N || (c =? 12)%N || (c =? 32)%N || (c =? 160)%N
  || (c =? 5760)%N || ((8192 <=? c)%N && (c <=? 8202)%N)
  || (c =? 8239)%N || (c =? 8287)%N || (c =? 12288)%N || (c =? 65279)%N
  || is_line_terminator c.

Fixpoint trimStart (s : t) : t :=
  match s with
  | [] => []
  | c :: s' => if is_white_space c then trimStart s' else s
  end.

Definition trimEnd (s : t) : t := rev (trimStart (rev s)).

(** [s.trim()] *)
Definition trim (s : t) : t := trimEnd (trimStart s).

(** [s.slice(0, n)] *)
Definition slice0 (n : nat) (s : t) : t := firstn n s.

(** [`${n}`] for an integral Number [n]. *)
Definition of_Z (n : Z) : t := lit (NilZero.string_of_int (Z.to_int n)).

(** [s.startsWith(p)], returning the remainder of [s] after [p]. *)
Fixpoint strip_prefix (p s : t) : option t :=
  match p with
  | [] => Some s
  | a :: p' =>
      match s with
      | [] => None
      | b :: s' => if (a =? b)%N then strip_prefix p' s' else None
      end
  end.

Definition startsWith (s p : t) : bool :=
  match strip_prefix p s with Some _ => true | None => false end.

End JsString.

Definition jsstring : Type := JsString.t.
Notation "'js' s" := (JsString.lit s) (at level 1, s at level 0, only parsing).

(** ** The action-data regular expression *)

Module ActionData.

(** The marker token of [/__ACTION_DATA__(.+?)__ACTION_DATA__/]. *)
Definition MARKER : jsstring := js "__ACTION_DATA__".

(** The tail [(.+?)__ACTION_DATA__] of the pattern, run by backtracking on
    [s]: the lazy quantifier takes one character that [.] accepts (anything
    but a line terminator), then tries the closing marker, and takes one
    more character each time the marker fails.  Returns the captured group
    and the text after the match. *)
Fixpoint lazy_group (s : jsstring) : option (jsstring * jsstring) :=
  match s with
  | [] => None
  | c :: s' =>
      if JsString.is_line_terminator c then None
      else match JsString.strip_prefix MARKER s' with
           | Some post => Some ([c], post)
           | None =>
               match lazy_group s' with
               | Some (g, post) => Some (c :: g, post)
               | None => None
               end
           end
  end.

(** The whole pattern anchored at the start of [s]. *)
Definition match_here (s : jsstring) : option (jsstring * jsstring) :=
  match JsString.strip_prefix MARKER s with
  | Some rest => lazy_group rest
  | None => None
  end.

(** [s.match(re)] without the global flag: the pattern is tried at index
    0, 1, 2, ... and the first index where it matches wins.  Returns the
    text before the match, the captured group and the text after it. *)
Fixpoint exec (s : jsstring) : option (jsstring * jsstring * jsstring) :=
  match match_here s with
  | Some (g, post) => Some ([], g, post)
  | None =>
      match s with
      | [] => None
      | c :: s' =>
          match exec s' with
          | Some (pre, g, post) => Some (c :: pre, g, post)
          | None => None
          end
      end
  end.

(** [s.replace(re, '')]: the first match is cut out, the rest is kept. *)
Definition replace_empty (s : jsstring) : jsstring :=
  match exec s with
  | Some (pre, _, post) => pre ++ post
  | None => s
  end.

(** Lines 233-237 of [sendMessage]: the displayed content of a response. *)
Definition displayed (response : jsstring) : jsstring :=
  match exec response with
  | Some _ => JsString.trim (replace_empty response)
  | None => response
  end.

(** Text that [.+] accepts: no line terminator in it. *)
Definition dot_text (g : jsstring) : Prop :=
  Forall (fun c => JsString.is_line_terminator c = false) g.

(** [s] holds a block: the marker, a non-empty text without line
    terminator, the marker again; [pre] and [post] stand around it. *)
Definition block_at (s pre g post : jsstring) : Prop :=
  s = pre ++ MARKER ++ g ++ MARKER ++ post /\ g <> [] /\ dot_text g.

End ActionData.

(** ** Data model *)

Inductive Role : Type := user | assistant.

Module Message.
Record t : Type := mk
  { id : jsstring; role : Role; content : jsstring; created_at : jsstring }.

(** [{ ...m, id: i }] *)
Definition with_id (i : jsstring) (m : t) : t :=
  mk i (role m) (content m) (created_at m).
End Message.

Module Conversation.
Record t : Type := mk
  { id : jsstring; title : jsstring; updated_at : jsstring }.
End Conversation.

(** A thrown or returned error value; [message] is [error.message]. *)
Record JsError : Type := Error { message : option jsstring }.

(** The [{ data, error }] pair the table client resolves to. *)
Record DbResult (A : Type) : Type := Reply
  { data : option A; error : option JsError }.

Arguments Reply {A} _ _.
Arguments data {A} _.
Arguments error {A} _.

(** The argument of [toast]. *)
Record Toast : Type := MkToast
  { toast_title : jsstring; description : jsstring; variant : option jsstring }.

(** The [body] of the call to the [xrozen-ai] function. *)
Record InvokeBody : Type := MkBody
  { body_message : jsstring;
    conversationId : option jsstring;
    body_messages : list (Role * jsstring) }.

(** What a handler does to the outside: requests to the backend, console
    output and notifications, in the order they happen. *)
Inductive Effect : Type :=
| AuthGetUser
| SelectConversations (user_id : jsstring)
| SelectMessages (conversation_id : jsstring)
| InsertConversation (user_id title : jsstring)
| DeleteMessages (conversation_id : jsstring)
| DeleteConversationRow (id : jsstring)
| InvokeAssistant (body : InvokeBody)
| ConsoleError (label : jsstring) (e : JsError)
| ShowToast (t : Toast)
| StopPropagation.

(** The state of the component (its [useState] hooks), the effects performed
    so far and the number of clock readings taken. *)
Record Session : Type := MkSession
  { conversations : list Conversation.t;
    selectedConversation : option jsstring;
    messages : list Message.t;
    input : jsstring;
    loading : bool;
    showHistory : bool;
    loadingConversations : bool;
    trace : list Effect;
    ticks : nat }.

(** The state of the hooks at mount. *)
Definition initial : Session :=
  MkSession [] None [] [] false false true [] 0.

(** The outside world as one handler run sees it: the clock, the identity
    provider, the two tables and the assistant function. *)
Record World : Type := MkWorld
  { clock : nat -> Z;
    toISOString : Z -> jsstring;
    auth_getUser : option jsstring;
    select_conversations : jsstring -> DbResult (list Conversation.t);
    select_messages : jsstring -> DbResult (list Message.t);
    insert_conversation : jsstring -> jsstring -> JsError + Conversation.t;
    delete_conversation : jsstring -> option JsError;
    invoke_assistant : InvokeBody -> JsError + jsstring }.

(** Projections of the trace. *)
Definition toasts (tr : list Effect) : list Toast :=
  flat_map (fun e => match e with ShowToast t => [t] | _ => [] end) tr.

Definition console_errors (tr : list Effect) : list (jsstring * JsError) :=
  flat_map (fun e => match e with ConsoleError l x => [(l, x)] | _ => [] end) tr.

(** [!id] for [id : string | null]. *)
Definition no_id (i : option jsstring) : bool :=
  match i with None => true | Some i' => JsString.falsy i' end.

(** [a === b] for [a : string | null] and [b : string]. *)
Definition id_is (a : option jsstring) (b : jsstring) : bool :=
  match a with None => false | Some a' => JsString.eqb a' b end.

(** [e.message || d] *)
Definition message_or (e : JsError) (d : jsstring) : jsstring :=
  match message e with
  | Some m => if JsString.falsy m then d else m
  | None => d
  end.

(** Identifiers made by [sendMessage]. *)
Definition temp_id (n : Z) : jsstring := js "temp-" ++ JsString.of_Z n.
Definition user_id_of (n : Z) : jsstring := js "user-" ++ JsString.of_Z n.
Definition ai_id (n : Z) : jsstring := js "ai-" ++ JsString.of_Z n.

(** An identifier is temporary when it has the prefix [temp-]. *)
Definition is_temp_id (i : jsstring) : bool := JsString.startsWith i (js "temp-").

(** ** Handlers as state-and-exception computations *)

Definition M (A : Type) : Type := Session -> Session * (JsError + A).

Definition ret {A} (a : A) : M A := fun s => (s, inr a).

Definition bind {A B} (m : M A) (k : A -> M B) : M B :=
  fun s => match m s with
           | (s', inr a) => k a s'
           | (s', inl e) => (s', inl e)
           end.

Definition throw {A} (e : JsError) : M A := fun s => (s, inl e).

Notation "x <- m ;; k" := (bind m (fun x => k))
  (at level 61, m at next level, right associativity).
Notation "m ;;; k" := (bind m (fun _ => k))
  (at level 61, right associativity).

(** [try { body } catch (e) { handler e } finally { fin }] *)
Definition try_catch_finally {A} (body : M A) (handler : JsError -> M A)
    (fin : M unit) : M A :=
  fun s =>
    let '(s1, r1) := match body s with
                     | (s', inl e) => handler e s'
                     | (s', inr a) => (s', inr a)
                     end in
    match fin s1 with
    | (s2, inl e) => (s2, inl e)
    | (s2, inr _) => (s2, r1)
    end.

Definition get : M Session := fun s => (s, inr s).

Definition perform (e : Effect) : M unit :=
  fun s => (MkSession (conversations s) (selectedConversation s) (messages s)
              (input s) (loading s) (showHistory s) (loadingConversations s)
              (trace s ++ [e]) (ticks s), inr tt).

Definition setConversations (f : list Conversation.t -> list Conversation.t) : M unit :=
  fun s => (MkSession (f (conversations s)) (selectedConversation s) (messages s)
              (input s) (loading s) (showHistory s) (loadingConversations s)
              (trace s) (ticks s), inr tt).

Definition setSelectedConversation (v : option jsstring) : M unit :=
  fun s => (MkSession (conversations s) v (messages s)
              (input s) (loading s) (showHistory s) (loadingConversations s)
              (trace s) (ticks s), inr tt).

Definition setMessages (f : list Message.t -> list Message.t) : M unit :=
  fun s => (MkSession (conversations s) (selectedConversation s) (f (messages s))
              (input s) (loading s) (showHistory s) (loadingConversations s)
              (trace s) (ticks s), inr tt).

Definition setInput (v : jsstring) : M unit :=
  fun s => (MkSession (conversations s) (selectedConversation s) (messages s)
              v (loading s) (showHistory s) (loadingConversations s)
              (trace s) (ticks s), inr tt).

Definition setLoading (v : bool) : M unit :=
  fun s => (MkSession (conversations s) (selectedConversation s) (messages s)
              (input s) v (showHistory s) (loadingConversations s)
              (trace s) (ticks s), inr tt).

Definition setLoadingConversations (v : bool) : M unit :=
  fun s => (MkSession (conversations s) (selectedConversation s) (messages s)
              (input s) (loading s) (showHistory s) v
              (trace s) (ticks s), inr tt).

Fixpoint mapM {A B} (f : A -> M B) (l : list A) : M (list B) :=
  match l with
  | [] => ret []
  | a :: l' => b <- f a ;; bs <- mapM f l' ;; ret (b :: bs)
  end.

(** ** The handlers of [XrozenAI.tsx] *)

Section Handlers.

Variable w : World.

(** [Date.now()]: the next reading of the clock. *)
Definition Date_now : M Z :=
  fun s => (MkSession (conversations s) (selectedConversation s) (messages s)
              (input s) (loading s) (showHistory s) (loadingConversations s)
              (trace s) (S (ticks s)), inr (clock w (ticks s))).

(** [new Date().toISOString()] *)
Definition new_Date_toISOString : M jsstring :=
  n <- Date_now ;; ret (toISOString w n).

Definition console_error (label : jsstring) (e : JsError) : M unit :=
  perform (ConsoleError label e).

Definition toast (t : Toast) : M unit := perform (ShowToast t).

(** [supabase.auth.getUser()], reduced to the user's id. *)
Definition getUser : M (option jsstring) :=
  perform AuthGetUser ;;; ret (auth_getUser w).

(** [data || []] *)
Definition rows {A} (r : DbResult (list A)) : list A :=
  match data r with Some d => d | None => [] end.

(** [loadMessages] after its request has been issued: the reply is
    examined and stored, or the error is logged. *)
Definition loadMessages_settle (conversationId : jsstring) : M unit :=
  try_catch_finally
    (let r := select_messages w conversationId in
     match error r with
     | Some e => throw e
     | None => setMessages (fun _ => rows r)
     end)
    (fun e => console_error (js "Error loading messages:") e)
    (ret tt).

(** Lines 90-104. *)
Definition loadMessages (conversationId : jsstring) : M unit :=
  perform (SelectMessages conversationId) ;;; loadMessages_settle conversationId.

(** Lines 62-87.  [loadMessages] is called without [await]: its request
    leaves inside the [try] block, its reply is handled after the
    [finally] block has run. *)
Definition loadConversations : M unit :=
  snap <- get ;;
  started <-
    try_catch_finally
      (u <- getUser ;;
       match u with
       | None => ret None
       | Some uid =>
           perform (SelectConversations uid) ;;;
           let r := select_conversations w uid in
           match error r with
           | Some e => throw e
           | None =>
               setConversations (fun _ => rows r) ;;;
               match data r with
               | Some (c :: _) =>
                   if no_id (selectedConversation snap) then
                     setSelectedConversation (Some (Conversation.id c)) ;;;
                     perform (SelectMessages (Conversation.id c)) ;;;
                     ret (Some (Conversation.id c))
                   else ret None
               | _ => ret None
               end
           end
       end)
      (fun e => console_error (js "Error loading conversations:") e ;;; ret None)
      (setLoadingConversations false) ;;
  match started with
  | Some cid => loadMessages_settle cid
  | None => ret tt
  end.

(** Lines 138-175.  The reply to the deletion of the messages is not
    looked at; the reply to the deletion of the conversation row is. *)
Definition deleteConversation (conversationId : jsstring) : M unit :=
  snap <- get ;;
  perform StopPropagation ;;;
  try_catch_finally
    (perform (DeleteMessages conversationId) ;;;
     perform (DeleteConversationRow conversationId) ;;;
     match delete_conversation w conversationId with
     | Some e => throw e
     | None =>
         setConversations
           (filter (fun c => negb (JsString.eqb (Conversation.id c) conversationId))) ;;;
         (if id_is (selectedConversation snap) conversationId then
            setSelectedConversation None ;;; setMessages (fun _ => [])
          else ret tt) ;;;
         toast (MkToast (js "Success") (js "Conversation deleted successfully") None)
     end)
    (fun e =>
       console_error (js "Error deleting conversation:") e ;;;
       toast (MkToast (js "Error") (js "Failed to delete conversation")
                (Some (js "destructive"))))
    (ret tt).

(** Lines 196-217: the conversation the message goes to, created when
    none is selected. *)
Definition conversationIdToUse (snap : Session) (userMessage : jsstring)
    : M (option jsstring) :=
  if no_id (selectedConversation snap) then
    u <- getUser ;;
    match u with
    | None => throw (Error (Some (js "User not authenticated")))
    | Some uid =>
        let title := JsString.slice0 50 userMessage in
        perform (InsertConversation uid title) ;;;
        match insert_conversation w uid title with
        | inl convError => throw convError
        | inr newConv =>
            setSelectedConversation (Some (Conversation.id newConv)) ;;;
            setConversations (fun prev => newConv :: prev) ;;;
            ret (Some (Conversation.id newConv))
        end
    end
  else ret (selectedConversation snap).

(** The [body] sent to the assistant function (lines 220-227). *)
Definition invoke_body (snap : Session) (tempId userMessage : jsstring)
    (cid : option jsstring) : InvokeBody :=
  MkBody userMessage cid
    (map (fun m => (Message.role m, Message.content m))
       (filter (fun m => negb (JsString.eqb (Message.id m) tempId)) (messages snap))).

(** The callback of [map] in lines 240-243: the message named [tempId]
    gets the id [user-<now>], the others pass unchanged. *)
Definition rename (tempId : jsstring) (m : Message.t) : M Message.t :=
  if JsString.eqb (Message.id m) tempId then
    n <- Date_now ;; ret (Message.with_id (user_id_of n) m)
  else ret m.

(** The updater of lines 240-249; its clock readings are taken in the
    order in which the expression is evaluated. *)
Definition commit (tempId responseContent : jsstring) : M unit :=
  cur <- get ;;
  renamed <- mapM (rename tempId) (messages cur) ;;
  n <- Date_now ;;
  created <- new_Date_toISOString ;;
  setMessages (fun _ =>
    renamed ++ [Message.mk (ai_id n) assistant responseContent created]).

(** The [try] block of [sendMessage], lines 196-249. *)
Definition send_try (snap : Session) (tempId userMessage : jsstring) : M unit :=
  cid <- conversationIdToUse snap userMessage ;;
  perform (InvokeAssistant (invoke_body snap tempId userMessage cid)) ;;;
  match invoke_assistant w (invoke_body snap tempId userMessage cid) with
  | inl e => throw e
  | inr response => commit tempId (ActionData.displayed response)
  end.

(** The [catch] block of [sendMessage], lines 251-260. *)
Definition send_catch (tempId : jsstring) (e : JsError) : M unit :=
  console_error (js "Error sending message:") e ;;;
  setMessages (filter (fun m => negb (JsString.eqb (Message.id m) tempId))) ;;;
  toast (MkToast (js "Error") (message_or e (js "Failed to send message"))
           (Some (js "destructive"))).

(** Lines 178-264.  [snap] is the state the closure was created in. *)
Definition sendMessage : M unit :=
  snap <- get ;;
  if JsString.falsy (JsString.trim (input snap)) || loading snap then ret tt
  else
    let userMessage := JsString.trim (input snap) in
    now <- Date_now ;;
    let tempId := temp_id now in
    setInput [] ;;;
    setLoading true ;;;
    created <- new_Date_toISOString ;;
    setMessages (fun prev => prev ++ [Message.mk tempId user userMessage created]) ;;;
    try_catch_finally
      (send_try snap tempId userMessage)
      (send_catch tempId)
      (setLoading false).

End Handlers.

(** ** Vocabulary of the statements *)

Section Vocabulary.

Variable w : World.

(** [sendMessage] goes past its first line: the trimmed input is not
    empty and no send is pending. *)
Definition accepted (s : Session) : Prop :=
  JsString.falsy (JsString.trim (input s)) = false /\ loading s = false.

(** The temporary identifier a send started in [s] uses. *)
Definition tempId_of (s : Session) : jsstring := temp_id (clock w (ticks s)).

(** The optimistic message of a send started in [s]. *)
Definition optimistic (s : Session) : Message.t :=
  Message.mk (tempId_of s) user (JsString.trim (input s))
    (toISOString w (clock w (S (ticks s)))).

(** The state after lines 181-193: the send is pending. *)
Definition pending (s : Session) : Session :=
  MkSession (conversations s) (selectedConversation s)
    (messages s ++ [optimistic s]) [] true (showHistory s)
    (loadingConversations s) (trace s) (S (S (ticks s))).

(** The outcome of lines 196-217 for a send started in [s]: the
    conversation id to use, or the error thrown. *)
Definition conversation_result (s : Session) : JsError + option jsstring :=
  if no_id (selectedConversation s) then
    match auth_getUser w with
    | None => inl (Error (Some (js "User not authenticated")))
    | Some uid =>
        match insert_conversation w uid
                (JsString.slice0 50 (JsString.trim (input s))) with
        | inl e => inl e
        | inr c => inr (Some (Conversation.id c))
        end
    end
  else inr (selectedConversation s).

(** The request a send started in [s] makes to the assistant. *)
Definition request_of (s : Session) (cid : option jsstring) : InvokeBody :=
  invoke_body s (tempId_of s) (JsString.trim (input s)) cid.

(** No message of the list carries the temporary identifier the send
    is about to use. *)
Definition fresh_for (s : Session) : Prop :=
  Forall (fun m => Message.id m <> tempId_of s) (messages s).

(** No message of the list carries a temporary identifier: the state
    of the list between two sends. *)
Definition no_temp_ids (s : Session) : Prop :=
  Forall (fun m => is_temp_id (Message.id m) = false) (messages s).

(** The user message once the send has been committed. *)
Definition committed (s : Session) : Message.t :=
  Message.with_id (user_id_of (clock w (2 + ticks s))) (optimistic s).

(** The assistant message appended for [response]. *)
Definition reply (s : Session) (response : jsstring) : Message.t :=
  Message.mk (ai_id (clock w (3 + ticks s))) assistant
    (ActionData.displayed response) (toISOString w (clock w (4 + ticks s))).

(** The remote call of a send started in [s] succeeds with [response]. *)
Definition send_succeeds (s : Session) (response : jsstring) : Prop :=
  exists cid, conversation_result s = inr cid /\
              invoke_assistant w (request_of s cid) = inr response.

(** The conversation creation or the remote call of a send started in
    [s] fails with [e]. *)
Definition send_fails (s : Session) (e : JsError) : Prop :=
  conversation_result s = inl e \/
  exists cid, conversation_result s = inr cid /\
              invoke_assistant w (request_of s cid) = inl e.

End Vocabulary.

(** The response text of the scenario of section 8 of the specification;
    code unit 34 is the double quote. *)
Definition scenario_response : jsstring :=
  js "Sure!__ACTION_DATA__{" ++ [34%N] ++ js "type" ++ [34%N] ++ js ":"
  ++ [34%N] ++ js "create_project" ++ [34%N] ++ js "}__ACTION_DATA__ Done.".

(** ** Concrete sessions and worlds *)

Module Scenario.

Definition convA : Conversation.t :=
  Conversation.mk (js "A") (js "Plans") (js "10:02").
Definition convB : Conversation.t :=
  Conversation.mk (js "B") (js "Notes") (js "10:00").

Definition earlier : Message.t :=
  Message.mk (js "m1") assistant (js "Welcome") (js "09:59").

Definition failure : JsError := Error (Some (js "Failed to fetch")).

(** A world in which every request succeeds; the assistant answers with
    the scenario text. *)
Definition w_ok : World :=
  MkWorld (fun n => 1000 + Z.of_nat n)%Z (fun z => js "T" ++ JsString.of_Z z)
    (Some (js "u1"))
    (fun _ => Reply (Some [convA; convB]) None)
    (fun _ => Reply (Some [earlier]) None)
    (fun _ title => inr (Conversation.mk (js "C") title (js "10:05")))
    (fun _ => None)
    (fun _ => inr scenario_response).

(** A world in which the user is known and every request fails. *)
Definition w_down : World :=
  MkWorld (fun n => 1000 + Z.of_nat n)%Z (fun z => js "T" ++ JsString.of_Z z)
    (Some (js "u1"))
    (fun _ => Reply None (Some failure))
    (fun _ => Reply None (Some failure))
    (fun _ _ => inl failure)
    (fun _ => Some failure)
    (fun _ => inl failure).

(** Conversation [B] is selected and the user has typed [hello]. *)
Definition s_hello : Session :=
  MkSession [convA; convB] (Some (js "B")) [earlier] (js " hello ")
    false false false [] 0.

(** Nothing is selected yet and the user has typed [hello]. *)
Definition s_first : Session :=
  MkSession [] None [] (js "hello") false false false [] 0.

(** The input holds blanks only. *)
Definition s_blank : Session :=
  MkSession [convA; convB] (Some (js "B")) [earlier] (js "   ")
    false false false [] 0.

(** A response with two blocks and a last marker without partner. *)
Definition two_blocks : jsstring :=
  js "A__ACTION_DATA__x__ACTION_DATA__ B__ACTION_DATA__y__ACTION_DATA__C__ACTION_DATA__".

End Scenario.

(** ** Further handlers of [XrozenAI.tsx] *)

Definition setShowHistory (v : bool) : M unit :=
  fun s => (MkSession (conversations s) (selectedConversation s) (messages s)
              (input s) (loading s) v (loadingConversations s)
              (trace s) (ticks s), inr tt).

(** The requests made to the assistant, in order. *)
Definition invocations (tr : list Effect) : list InvokeBody :=
  flat_map (fun e => match e with InvokeAssistant b => [b] | _ => [] end) tr.

(** The requests made to the identity provider and to the tables. *)
Definition is_backend_request (e : Effect) : bool :=
  match e with
  | AuthGetUser | SelectConversations _ | SelectMessages _
  | InsertConversation _ _ | DeleteMessages _ | DeleteConversationRow _ => true
  | _ => false
  end.

Section MoreHandlers.

Variable w : World.

(** Lines 107-135. *)
Definition createNewConversation : M unit :=
  try_catch_finally
    (u <- getUser w ;;
     match u with
     | None => ret tt
     | Some uid =>
         perform (InsertConversation uid (js "New Conversation")) ;;;
         match insert_conversation w uid (js "New Conversation") with
         | inl e => throw e
         | inr data =>
             setConversations (fun prev => data :: prev) ;;;
             setSelectedConversation (Some (Conversation.id data)) ;;;
             setMessages (fun _ => []) ;;;
             setInput []
         end
     end)
    (fun e =>
       console_error (js "Error creating conversation:") e ;;;
       toast (MkToast (js "Error") (js "Failed to create new conversation")
                (Some (js "destructive"))))
    (ret tt).

(** The [onClick] of an entry of the history, lines 327-331.
    [loadMessages] is not awaited: its request leaves, the panel is
    closed, then the reply is handled. *)
Definition onSelectConversation (conv_id : jsstring) : M unit :=
  setSelectedConversation (Some conv_id) ;;;
  perform (SelectMessages conv_id) ;;;
  setShowHistory false ;;;
  loadMessages_settle w conv_id.

(** [checkAuth], lines 43-50.  The result is the route handed to
    [navigate], if any. *)
Definition checkAuth : M (option jsstring) :=
  u <- getUser w ;;
  match u with
  | None => ret (Some (js "/auth"))
  | Some _ => loadConversations w ;;; ret None
  end.

End MoreHandlers.

(** The state the [catch] and [finally] blocks of [sendMessage] leave
    when the [try] block threw [e] in state [p]. *)
Definition after_catch (t : jsstring) (e : JsError) (p : Session) : Session :=
  fst (setLoading false (fst (send_catch t e p))).

(** A text without white space at either end. *)
Definition trimmed (t : jsstring) : Prop :=
  (forall c r, t = c :: r -> JsString.is_white_space c = false) /\
  (forall r c, t = r ++ [c] -> JsString.is_white_space c = false).

(** [disabled] of the send button, line 465. *)
Definition sendDisabled (s : Session) : bool :=
  JsString.falsy (JsString.trim (input s)) || loading s.

(** ** Pure helpers of the admin pages *)

Module Admin.

(** [s.substring(a, b)]: both ends are clamped to the string and swapped
    when out of order. *)
Definition clamp (n : Z) (len : nat) : nat :=
  Z.to_nat (Z.min (Z.max n 0) (Z.of_nat len)).

Definition substring (a b : Z) (s : jsstring) : jsstring :=
  let i := clamp a (List.length s) in
  let j := clamp b (List.length s) in
  firstn (Nat.max i j - Nat.min i j) (skipn (Nat.min i j) s).

(** [s.substring(a)] *)
Definition substring_from (a : Z) (s : jsstring) : jsstring :=
  substring a (Z.of_nat (List.length s)) s.

(** [maskApiKey] of the API-key page, [App.tsx] lines 278-280. *)
Definition maskApiKey (key : jsstring) : jsstring :=
  substring 0 8 key ++ js "..."
  ++ substring_from (Z.of_nat (List.length key) - 4) key.

(** [s.includes(sub)] *)
Fixpoint includes (s sub : jsstring) : bool :=
  match JsString.strip_prefix sub s with
  | Some _ => true
  | None => match s with
            | [] => false
            | _ :: s' => includes s' sub
            end
  end.

(** The icons of the activity log. *)
Inductive Icon : Type := CheckCircle | Info | XCircle | AlertTriangle | Activity.

(** The [icons] record of [getActionIcon], in the order of its keys. *)
Definition icons : list (jsstring * Icon) :=
  [(js "create", CheckCircle); (js "update", Info);
   (js "delete", XCircle); (js "error", AlertTriangle)].

(** [getActionIcon] of the activity log, lines 110-122. *)
Definition getActionIcon (action : jsstring) : Icon :=
  match find (fun entry => includes action (fst entry)) icons with
  | Some (_, icon) => icon
  | None => Activity
  end.

(** [getActionColor] of the activity log, lines 124-130. *)
Definition getActionColor (action : jsstring) : jsstring :=
  if includes action (js "create") then js "bg-success"
  else if includes action (js "update") then js "bg-primary"
  else if includes action (js "delete") then js "bg-destructive"
  else if includes action (js "error") then js "bg-warning"
  else js "bg-muted".

(** The badge colour that goes with each icon. *)
Definition colour_of_icon (i : Icon) : jsstring :=
  match i with
  | CheckCircle => js "bg-success"
  | Info => js "bg-primary"
  | XCircle => js "bg-destructive"
  | AlertTriangle => js "bg-warning"
  | Activity => js "bg-muted"
  end.

End Admin.

(** ** Further concrete worlds and inputs *)

Module MoreScenario.
Import Scenario.

(** A world without a signed-in user. *)
Definition w_signed_out : World :=
  MkWorld (clock w_ok) (toISOString w_ok) None
    (select_conversations w_ok) (select_messages w_ok)
    (insert_conversation w_ok) (delete_conversation w_ok)
    (invoke_assistant w_ok).

(** A world in which the tables answer and the assistant fails. *)
Definition w_half : World :=
  MkWorld (clock w_ok) (toISOString w_ok) (Some (js "u1"))
    (select_conversations w_ok) (select_messages w_ok)
    (insert_conversation w_ok) (delete_conversation w_ok)
    (fun _ => inl failure).

(** The row the backend of [w_ok] returns for a first [hello]. *)
Definition convC : Conversation.t :=
  Conversation.mk (js "C") (js "hello") (js "10:05").

(** A response whose payload runs over two lines, with blanks around. *)
Definition two_lines : jsstring :=
  js " Hi __ACTION_DATA__{" ++ [10%N] ++ js "}__ACTION_DATA__ ".

End MoreScenario.

(** ** Handlers called from a given render *)

(** A handler is a closure of the render that created it: it reads
    [input], [loading], [messages] and [selectedConversation] as they were
    in that render, while its setters act on the state as it is when they
    run.  The definitions above take the render to be the one of the
    current state; here it is a parameter. *)
Section Closures.

Variable w : World.



(** Lines 62-87, called from the render [snap]; the only call is that of
    [checkAuth] in the effect run at mount. *)
Definition loadConversations_in (snap : Session) : M unit :=
  started <-
    try_catch_finally
      (u <- getUser w ;;
       match u with
       | None => ret None
       | Some uid =>
           perform (SelectConversations uid) ;;;
           let r := select_conversations w uid in
           match error r with
           | Some e => throw e
           | None =>
               setConversations (fun _ => rows r) ;;;
               match data r with
               | Some (c :: _) =>
                   if no_id (selectedConversation snap) then
                     setSelectedConversation (Some (Conversation.id c)) ;;;
                     perform (SelectMessages (Conversation.id c)) ;;;
                     ret (Some (Conversation.id c))
                   else ret None
               | _ => ret None
               end
           end
       end)
      (fun e => console_error (js "Error loading conversations:") e ;;; ret None)
      (setLoadingConversations false) ;;
  match started with
  | Some cid => loadMessages_settle w cid
  | None => ret tt
  end.

End Closures.


Module ClosureScenario.
Import Scenario.

(** The world of [w_ok] with an assistant that answers [two_blocks]. *)
Definition w_two : World :=
  MkWorld (clock w_ok) (toISOString w_ok) (auth_getUser w_ok)
    (select_conversations w_ok) (select_messages w_ok)
    (insert_conversation w_ok) (delete_conversation w_ok)
    (fun _ => inr two_blocks).

(** The world of [w_ok] with an empty table of conversations. *)
Definition w_empty : World :=
  MkWorld (clock w_ok) (toISOString w_ok) (auth_getUser w_ok)
    (fun _ => Reply (Some []) None) (select_messages w_ok)
    (insert_conversation w_ok) (delete_conversation w_ok)
    (invoke_assistant w_ok).

End ClosureScenario.

(** ** Properties of the string operations *)

Module JsStringFacts.
Import JsString.

Lemma eqb_eq (a b : t) : eqb a b = true <-> a = b.
Proof. unfold eqb. destruct (list_eq_dec N.eq_dec a b); split; congruence. Qed.

Lemma eqb_neq (a b : t) : eqb a b = false <-> a <> b.
Proof. unfold eqb. destruct (list_eq_dec N.eq_dec a b); split; congruence. Qed.

Lemma eqb_refl (a : t) : eqb a a = true.
Proof. apply eqb_eq. reflexivity. Qed.

Lemma strip_prefix_app (p s : t) : strip_prefix p (p ++ s) = Some s.
Proof.
  induction p as [|a p IH]; simpl; [reflexivity|].
  rewrite N.eqb_refl. exact IH.
Qed.

Lemma strip_prefix_Some (p s r : t) : strip_prefix p s = Some r -> s = p ++ r.
Proof.
  revert s. induction p as [|a p IH]; simpl; intros s H.
  - congruence.
  - destruct s as [|b s]; [discriminate|].
    destruct (N.eqb_spec a b) as [->|]; [|discriminate].
    f_equal. apply IH. exact H.
Qed.


Lemma trimStart_keeps (x r : t) (a : N) :
  is_white_space a = false -> trimStart (x ++ a :: r) = trimStart x ++ a :: r.
Proof.
  intros Ha. induction x as [|c x IH]; simpl.
  - rewrite Ha. reflexivity.
  - destruct (is_white_space c); [exact IH | reflexivity].
Qed.

Lemma trimEnd_keeps (l y : t) (b : N) :
  is_white_space b = false -> trimEnd (l ++ b :: y) = l ++ b :: trimEnd y.
Proof.
  intros Hb. unfold trimEnd.
  rewrite rev_app_distr. simpl. rewrite <- app_assoc. simpl.
  rewrite trimStart_keeps by exact Hb.
  rewrite rev_app_distr. simpl. rewrite rev_involutive, <- app_assoc.
  reflexivity.
Qed.




Lemma trimStart_head (s r : t) (c : N) :
  trimStart s = c :: r -> is_white_space c = false.
Proof.
  induction s as [|d s IH]; simpl; [discriminate|].
  destruct (is_white_space d) eqn:Hd; [exact IH|].
  intros E. injection E as <- _. exact Hd.
Qed.


End JsStringFacts.

(** ** Properties of the action-data pattern *)

Module ActionDataFacts.
Import JsString JsStringFacts ActionData.

#[local] Arguments MARKER : simpl never.

Lemma lazy_group_cons (c : N) (s : jsstring) :
  lazy_group (c :: s) =
  if is_line_terminator c then None
  else match strip_prefix MARKER s with
       | Some post => Some ([c], post)
       | None => match lazy_group s with
                 | Some (g, post) => Some (c :: g, post)
                 | None => None
                 end
       end.
Proof. reflexivity. Qed.

Lemma lazy_group_sound (s g post : jsstring) :
  lazy_group s = Some (g, post) ->
  s = g ++ MARKER ++ post /\ g <> [] /\ dot_text g.
Proof.
  revert g post. induction s as [|c s IH]; intros g post; [discriminate|].
  rewrite lazy_group_cons.
  destruct (is_line_terminator c) eqn:Hc; [discriminate|].
  destruct (strip_prefix MARKER s) as [rest|] eqn:Hp.
  - intros E. injection E as <- <-.
    apply strip_prefix_Some in Hp. subst s.
    repeat split; [discriminate|]. constructor; [exact Hc | constructor].
  - destruct (lazy_group s) as [[g1 post1]|]; [|discriminate].
    intros E. injection E as <- <-.
    destruct (IH g1 post1 eq_refl) as (-> & _ & Hd).
    repeat split; [discriminate|]. constructor; assumption.
Qed.


Lemma lazy_group_complete (g post : jsstring) :
  g <> [] -> dot_text g -> lazy_group (g ++ MARKER ++ post) <> None.
Proof.
  induction g as [|c g IH]; intros Hne Hd; [congruence|].
  inversion Hd as [|? ? Hc Hd']; subst.
  change ((c :: g) ++ MARKER ++ post) with (c :: (g ++ MARKER ++ post)).
  rewrite lazy_group_cons, Hc.
  destruct (strip_prefix MARKER (g ++ MARKER ++ post)) eqn:Hp; [discriminate|].
  destruct g as [|c' g].
  - change ([] ++ MARKER ++ post) with (MARKER ++ post) in Hp.
    rewrite strip_prefix_app in Hp. discriminate.
  - specialize (IH ltac:(discriminate) Hd').
    destruct (lazy_group ((c' :: g) ++ MARKER ++ post)) as [[? ?]|];
      [discriminate | congruence].
Qed.

Lemma match_here_complete (g post : jsstring) :
  g <> [] -> dot_text g ->
  match_here (MARKER ++ g ++ MARKER ++ post) <> None.
Proof.
  intros Hne Hd. unfold match_here. rewrite strip_prefix_app.
  apply lazy_group_complete; assumption.
Qed.

Lemma exec_nil : exec [] = None.
Proof. reflexivity. Qed.

Lemma exec_cons (c : N) (s : jsstring) :
  exec (c :: s) =
  match match_here (c :: s) with
  | Some (g, post) => Some ([], g, post)
  | None => match exec s with
            | Some (pre, g, post) => Some (c :: pre, g, post)
            | None => None
            end
  end.
Proof. reflexivity. Qed.

(** What [exec] returns is a block of the text. *)
Lemma exec_sound (s pre g post : jsstring) :
  exec s = Some (pre, g, post) -> block_at s pre g post.
Proof.
  revert pre. induction s as [|c s IH]; intros pre; [discriminate|].
  rewrite exec_cons.
  destruct (match_here (c :: s)) as [[g0 post0]|] eqn:Hm.
  - intros E. injection E as <- <- <-.
    unfold match_here in Hm.
    destruct (strip_prefix MARKER (c :: s)) as [rest|] eqn:Hp; [|discriminate].
    apply strip_prefix_Some in Hp.
    destruct (lazy_group_sound _ _ _ Hm) as (-> & Hne & Hd).
    unfold block_at. rewrite Hp. auto.
  - destruct (exec s) as [[[pre1 g1] post1]|]; [|discriminate].
    intros E. injection E as <- <- <-.
    destruct (IH pre1 eq_refl) as (-> & Hne & Hd).
    unfold block_at. auto.
Qed.


(** A text that holds a block is matched. *)
Lemma exec_complete (s pre g post : jsstring) :
  block_at s pre g post -> exec s <> None.
Proof.
  intros (-> & Hne & Hd). induction pre as [|c pre IH].
  - change ([] ++ MARKER ++ g ++ MARKER ++ post) with (MARKER ++ g ++ MARKER ++ post).
    pose proof (match_here_complete _ post Hne Hd) as Hm.
    destruct (MARKER ++ g ++ MARKER ++ post) as [|c s] eqn:E; [discriminate|].
    rewrite exec_cons.
    destruct (match_here (c :: s)) as [[? ?]|]; [discriminate | congruence].
  - change ((c :: pre) ++ MARKER ++ g ++ MARKER ++ post)
      with (c :: (pre ++ MARKER ++ g ++ MARKER ++ post)).
    rewrite exec_cons.
    destruct (match_here _) as [[? ?]|]; [discriminate|].
    destruct (exec _) as [[[? ?] ?]|]; [discriminate | congruence].
Qed.

Lemma displayed_match (s pre g post : jsstring) :
  exec s = Some (pre, g, post) -> displayed s = trim (pre ++ post).
Proof. intros E. unfold displayed, replace_empty. rewrite E. reflexivity. Qed.

Lemma displayed_no_match (s : jsstring) : exec s = None -> displayed s = s.
Proof. intros E. unfold displayed. rewrite E. reflexivity. Qed.

End ActionDataFacts.

(** ** Properties of the handlers *)

(** Runs the state-and-exception combinators on a state given by its
    fields. *)
Ltac run_handler :=
  cbv beta iota zeta delta
    [try_catch_finally bind ret throw get perform toast console_error
     setConversations setSelectedConversation setMessages setInput setLoading
     setLoadingConversations getUser
     conversations selectedConversation messages input loading showHistory
     loadingConversations trace ticks fst snd].

Lemma toasts_app (a b : list Effect) : toasts (a ++ b) = toasts a ++ toasts b.
Proof. apply flat_map_app. Qed.

Lemma console_errors_app (a b : list Effect) :
  console_errors (a ++ b) = console_errors a ++ console_errors b.
Proof. apply flat_map_app. Qed.

Section SendFacts.

Variable w : World.

#[local] Arguments JsString.lit : simpl never.
#[local] Arguments JsString.trim : simpl never.
#[local] Arguments JsString.slice0 : simpl never.
#[local] Arguments JsString.of_Z : simpl never.
#[local] Arguments ActionData.displayed : simpl never.

Lemma sendMessage_rejected (s : Session) :
  JsString.falsy (JsString.trim (input s)) || loading s = true ->
  sendMessage w s = (s, inr tt).
Proof.
  intros H. unfold sendMessage, bind, get. cbv beta iota. rewrite H. reflexivity.
Qed.

Lemma sendMessage_accepted (s : Session) :
  accepted s ->
  sendMessage w s =
  try_catch_finally
    (send_try w s (tempId_of w s) (JsString.trim (input s)))
    (send_catch (tempId_of w s))
    (setLoading false)
    (pending w s).
Proof.
  intros [H1 H2]. unfold sendMessage, bind, get. cbv beta iota.
  rewrite H1, H2. reflexivity.
Qed.

(** Lines 196-217 touch the conversation list, the selection and the
    trace, and nothing else. *)
Lemma conversationIdToUse_frame (snap p : Session) (um : jsstring) :
  let p' := fst (conversationIdToUse w snap um p) in
  messages p' = messages p /\ input p' = input p /\ loading p' = loading p /\
  ticks p' = ticks p /\ toasts (trace p') = toasts (trace p).
Proof.
  unfold conversationIdToUse, getUser, bind, perform, throw, ret,
    setSelectedConversation, setConversations.
  destruct (no_id (selectedConversation snap)); simpl.
  - destruct (auth_getUser w) as [uid|]; simpl.
    + destruct (insert_conversation w uid (JsString.slice0 50 um)); simpl;
        repeat split; try reflexivity;
        rewrite <- ?app_assoc, toasts_app; simpl; apply app_nil_r.
    + repeat split; try reflexivity.
      rewrite toasts_app; simpl; apply app_nil_r.
  - repeat split; reflexivity.
Qed.

Lemma conversationIdToUse_result (s p : Session) :
  snd (conversationIdToUse w s (JsString.trim (input s)) p) = conversation_result w s.
Proof.
  unfold conversationIdToUse, conversation_result, getUser, bind, perform,
    throw, ret, setSelectedConversation, setConversations.
  destruct (no_id (selectedConversation s)); simpl; [|reflexivity].
  destruct (auth_getUser w) as [uid|]; simpl; [|reflexivity].
  destruct (insert_conversation w uid _); reflexivity.
Qed.

Lemma rename_fresh (t : jsstring) (pre : list Message.t) (p : Session) :
  Forall (fun m => Message.id m <> t) pre ->
  mapM (rename w t) pre p = (p, inr pre).
Proof.
  induction 1 as [|m pre Hm _ IH]; [reflexivity|].
  cbn [mapM]. unfold bind at 1. unfold rename at 1.
  apply JsStringFacts.eqb_neq in Hm. rewrite Hm. unfold ret at 1.
  unfold bind. rewrite IH. reflexivity.
Qed.

Lemma rename_tail (t : jsstring) (pre : list Message.t) (opt : Message.t)
    (p : Session) :
  Forall (fun m => Message.id m <> t) pre -> Message.id opt = t ->
  mapM (rename w t) (pre ++ [opt]) p =
  (fst (Date_now w p),
   inr (pre ++ [Message.with_id (user_id_of (clock w (ticks p))) opt])).
Proof.
  intros Hpre Hopt. induction Hpre as [|m pre Hm _ IH].
  - cbn [app mapM]. unfold bind, rename. rewrite Hopt, JsStringFacts.eqb_refl.
    reflexivity.
  - cbn [app mapM]. unfold bind at 1. unfold rename at 1.
    apply JsStringFacts.eqb_neq in Hm. rewrite Hm. unfold ret at 1.
    unfold bind. rewrite IH. reflexivity.
Qed.

Lemma filter_fresh (t : jsstring) (pre : list Message.t) (opt : Message.t) :
  Forall (fun m => Message.id m <> t) pre -> Message.id opt = t ->
  filter (fun m => negb (JsString.eqb (Message.id m) t)) (pre ++ [opt]) = pre.
Proof.
  intros Hpre Hopt. rewrite filter_app. cbn [filter].
  rewrite Hopt, JsStringFacts.eqb_refl. cbn [negb]. rewrite app_nil_r.
  induction Hpre as [|m pre Hm _ IH]; [reflexivity|].
  cbn [filter]. apply JsStringFacts.eqb_neq in Hm. rewrite Hm. cbn [negb].
  f_equal. exact IH.
Qed.

(** The commit step on a list that ends with the only message named
    [tempId]. *)
Lemma commit_fresh (t content : jsstring) (pre : list Message.t)
    (opt : Message.t) (p : Session) :
  messages p = pre ++ [opt] ->
  Forall (fun m => Message.id m <> t) pre -> Message.id opt = t ->
  commit w t content p =
  (MkSession (conversations p) (selectedConversation p)
     (pre ++ [Message.with_id (user_id_of (clock w (ticks p))) opt;
              Message.mk (ai_id (clock w (S (ticks p)))) assistant content
                (toISOString w (clock w (S (S (ticks p)))))])
     (input p) (loading p) (showHistory p) (loadingConversations p)
     (trace p) (S (S (S (ticks p)))),
   inr tt).
Proof.
  intros Hm Hpre Hopt. unfold commit.
  unfold bind at 1. unfold get. unfold bind at 1.
  rewrite Hm, (rename_tail t pre opt p Hpre Hopt).
  unfold new_Date_toISOString, bind, Date_now, setMessages, ret. cbn.
  rewrite <- app_assoc. reflexivity.
Qed.

Lemma sendMessage_success_run (s : Session) (response : jsstring) :
  accepted s -> fresh_for w s -> send_succeeds w s response ->
  exists s',
    sendMessage w s = (s', inr tt) /\
    messages s' = messages s ++ [committed w s; reply w s response] /\
    loading s' = false /\ input s' = [] /\
    toasts (trace s') = toasts (trace s).
Proof.
  intros Hacc Hfresh (cid & Hconv & Hinv).
  rewrite (sendMessage_accepted s Hacc).
  unfold try_catch_finally, send_try. unfold bind at 1.
  pose proof (conversationIdToUse_frame s (pending w s) (JsString.trim (input s))) as F.
  pose proof (conversationIdToUse_result s (pending w s)) as R.
  destruct (conversationIdToUse w s (JsString.trim (input s)) (pending w s)) as [p1 r].
  cbv zeta in F. cbn [fst snd] in F, R. rewrite Hconv in R. subst r.
  destruct F as (Fm & Fi & Fl & Ft & Fto).
  unfold bind at 1. unfold perform at 1.
  unfold request_of in Hinv. rewrite Hinv.
  erewrite commit_fresh;
    [ | cbn [messages]; rewrite Fm; reflexivity | exact Hfresh | reflexivity ].
  eexists. split; [reflexivity|]. cbn.
  rewrite Fi, Ft, toasts_app, Fto. cbn. rewrite app_nil_r.
  repeat split; reflexivity.
Qed.

Lemma sendMessage_failure_run (s : Session) (e : JsError) :
  accepted s -> fresh_for w s -> send_fails w s e ->
  exists s',
    sendMessage w s = (s', inr tt) /\
    messages s' = messages s /\
    loading s' = false /\ input s' = [] /\
    toasts (trace s') =
      toasts (trace s) ++
      [MkToast (js "Error") (message_or e (js "Failed to send message"))
         (Some (js "destructive"))] /\
    In (js "Error sending message:", e) (console_errors (trace s')).
Proof.
  intros Hacc Hfresh Hfail.
  rewrite (sendMessage_accepted s Hacc).
  unfold try_catch_finally, send_try. unfold bind at 1.
  pose proof (conversationIdToUse_frame s (pending w s) (JsString.trim (input s))) as F.
  pose proof (conversationIdToUse_result s (pending w s)) as R.
  destruct (conversationIdToUse w s (JsString.trim (input s)) (pending w s)) as [p1 r].
  cbv zeta in F. cbn [fst snd] in F, R.
  destruct F as (Fm & Fi & Fl & Ft & Fto).
  assert (Hroll : filter (fun m => negb (JsString.eqb (Message.id m) (tempId_of w s)))
                    (messages p1) = messages s).
  { rewrite Fm. apply filter_fresh; [exact Hfresh | reflexivity]. }
  destruct Hfail as [Hconv | (cid & Hconv & Hinv)]; rewrite Hconv in R; subst r.
  - eexists. split; [reflexivity|]. cbn.
    rewrite Hroll, Fi, !toasts_app, !console_errors_app, Fto. cbn.
    rewrite app_nil_r.
    repeat split; try reflexivity.
    rewrite ?app_nil_r. apply in_or_app. right. left. reflexivity.
  - unfold bind at 1. unfold perform at 1.
    unfold request_of in Hinv. rewrite Hinv.
    eexists. split; [reflexivity|]. cbn.
    rewrite Hroll, Fi, !toasts_app, !console_errors_app, Fto. cbn.
    rewrite !app_nil_r.
    repeat split; try reflexivity.
    rewrite ?app_nil_r. apply in_or_app. right. left. reflexivity.
Qed.

(** The renaming reads the clock and touches nothing else, whatever
    the list holds. *)
Lemma rename_run (t : jsstring) (l : list Message.t) (p : Session) :
  exists n l',
    mapM (rename w t) l p =
    (MkSession (conversations p) (selectedConversation p) (messages p)
       (input p) (loading p) (showHistory p) (loadingConversations p)
       (trace p) n, inr l').
Proof.
  revert p. induction l as [|m l IH]; intros p.
  - exists (ticks p), []. destruct p; reflexivity.
  - cbn [mapM]. unfold bind at 1. unfold rename at 1.
    destruct (JsString.eqb (Message.id m) t).
    + unfold bind at 1. unfold Date_now at 1. unfold ret at 1. unfold bind.
      destruct (IH (fst (Date_now w p))) as (n & l' & E).
      unfold Date_now in E. cbn [fst] in E. rewrite E. cbn.
      eexists _, _. reflexivity.
    + unfold ret at 1. unfold bind.
      destruct (IH p) as (n & l' & E). rewrite E.
      eexists _, _. reflexivity.
Qed.

Lemma commit_frame (t content : jsstring) (p : Session) :
  exists p',
    commit w t content p = (p', inr tt) /\
    conversations p' = conversations p /\
    selectedConversation p' = selectedConversation p /\
    trace p' = trace p /\ input p' = input p /\ loading p' = loading p.
Proof.
  unfold commit. unfold bind at 1. unfold get. unfold bind at 1.
  destruct (rename_run t (messages p) p) as (n & l' & E). rewrite E.
  eexists. split; [reflexivity|]. cbn. repeat split; reflexivity.
Qed.

(** Every accepted send runs to its [finally] block and returns
    normally. *)
Lemma sendMessage_accepted_loading (s : Session) :
  accepted s ->
  loading (fst (sendMessage w s)) = false /\ snd (sendMessage w s) = inr tt.
Proof.
  intros Hacc. rewrite (sendMessage_accepted s Hacc).
  unfold try_catch_finally.
  destruct (send_try w s (tempId_of w s) (JsString.trim (input s)) (pending w s))
    as [p1 [e|[]]]; cbn; split; reflexivity.
Qed.

(** Lines 198-217 when no conversation is selected and the insert
    succeeds. *)
Lemma conversationIdToUse_creates (snap p : Session) (um uid : jsstring)
    (c : Conversation.t) :
  no_id (selectedConversation snap) = true ->
  auth_getUser w = Some uid ->
  insert_conversation w uid (JsString.slice0 50 um) = inr c ->
  conversationIdToUse w snap um p =
  (MkSession (c :: conversations p) (Some (Conversation.id c)) (messages p)
     (input p) (loading p) (showHistory p) (loadingConversations p)
     (trace p ++ [AuthGetUser; InsertConversation uid (JsString.slice0 50 um)])
     (ticks p),
   inr (Some (Conversation.id c))).
Proof.
  intros Hsel Hu Hins.
  unfold conversationIdToUse, getUser, bind, perform, ret,
    setSelectedConversation, setConversations.
  rewrite Hsel. cbn. rewrite Hu, Hins. cbn. rewrite <- app_assoc. reflexivity.
Qed.

Lemma temp_id_is_temp (n : Z) : is_temp_id (temp_id n) = true.
Proof.
  unfold is_temp_id, temp_id, JsString.startsWith.
  rewrite JsStringFacts.strip_prefix_app. reflexivity.
Qed.

Lemma user_id_not_temp (n : Z) : is_temp_id (user_id_of n) = false.
Proof. reflexivity. Qed.

Lemma ai_id_not_temp (n : Z) : is_temp_id (ai_id n) = false.
Proof. reflexivity. Qed.

(** A list without temporary identifiers is fresh for every send. *)
Lemma no_temp_ids_fresh (s : Session) : no_temp_ids s -> fresh_for w s.
Proof.
  unfold no_temp_ids, fresh_for. apply Forall_impl.
  intros m Hm E. unfold tempId_of in E. rewrite E, temp_id_is_temp in Hm.
  discriminate.
Qed.

(** [sendMessage] keeps the list without temporary identifiers, whatever
    the outcome of the send. *)
Lemma sendMessage_keeps_no_temp_ids (s : Session) :
  no_temp_ids s -> no_temp_ids (fst (sendMessage w s)).
Proof.
  intros Hs. pose proof (no_temp_ids_fresh s Hs) as Hf.
  destruct (JsString.falsy (JsString.trim (input s)) || loading s) eqn:G.
  - rewrite (sendMessage_rejected s G). exact Hs.
  - apply orb_false_iff in G.
    assert (Hcase : (exists e, send_fails w s e) \/
                    (exists r, send_succeeds w s r)).
    { unfold send_fails, send_succeeds.
      destruct (conversation_result w s) as [e|cid] eqn:Hc.
      - left. exists e. left. reflexivity.
      - destruct (invoke_assistant w (request_of w s cid)) as [e|r] eqn:Hi.
        + left. exists e. right. exists cid. auto.
        + right. exists r, cid. auto. }
    destruct Hcase as [[e He]|[r Hr]].
    + destruct (sendMessage_failure_run s e G Hf He) as (s' & E & Hm & _).
      rewrite E. unfold no_temp_ids. cbn [fst]. rewrite Hm. exact Hs.
    + destruct (sendMessage_success_run s r G Hf Hr) as (s' & E & Hm & _).
      rewrite E. unfold no_temp_ids. cbn [fst]. rewrite Hm.
      apply Forall_app. split; [exact Hs|].
      constructor; [apply user_id_not_temp|].
      constructor; [apply ai_id_not_temp | constructor].
Qed.

(** C1: when the remote call of an accepted send succeeds, the final
    message list is the list before the send, then the optimistic message
    with its content, role and timestamp kept and its temporary identifier
    replaced by a permanent one, then one assistant message; nothing else
    is added, removed or changed.  The optimistic message is the only one
    that carries its temporary identifier. *)
Theorem sendMessage_commits_optimistic (s : Session) (response : jsstring) :
  accepted s -> fresh_for w s -> send_succeeds w s response ->
  exists s',
    sendMessage w s = (s', inr tt) /\
    messages (pending w s) = messages s ++ [optimistic w s] /\
    is_temp_id (Message.id (optimistic w s)) = true /\
    messages s' = messages s ++ [committed w s; reply w s response] /\
    Message.content (committed w s) = Message.content (optimistic w s) /\
    Message.role (committed w s) = Message.role (optimistic w s) /\
    Message.created_at (committed w s) = Message.created_at (optimistic w s) /\
    is_temp_id (Message.id (committed w s)) = false /\
    Message.role (reply w s response) = assistant /\
    is_temp_id (Message.id (reply w s response)) = false.
Proof.
  intros Hacc Hfresh Hok.
  destruct (sendMessage_success_run s response Hacc Hfresh Hok)
    as (s' & E & Hm & _).
  exists s'. split; [exact E|]. split; [reflexivity|].
  split; [apply temp_id_is_temp|]. split; [exact Hm|].
  repeat split; reflexivity.
Qed.

(** C2: when the conversation creation or the remote call of an accepted
    send fails, the message list is again exactly the list before the
    send, and one error notification carrying the failure reason is
    raised. *)
Theorem sendMessage_rolls_back (s : Session) (e : JsError) :
  accepted s -> fresh_for w s -> send_fails w s e ->
  exists s',
    sendMessage w s = (s', inr tt) /\
    messages s' = messages s /\
    toasts (trace s') =
      toasts (trace s) ++
      [MkToast (js "Error") (message_or e (js "Failed to send message"))
         (Some (js "destructive"))].
Proof.
  intros Hacc Hfresh Hfail.
  destruct (sendMessage_failure_run s e Hacc Hfresh Hfail)
    as (s' & E & Hm & _ & _ & Ht & _).
  exists s'. auto.
Qed.

(** C4, as the code has it: [sendMessage] always returns normally; a
    send that passes its first line ends with the pending flag cleared,
    whether the remote call succeeded or it or the conversation creation
    failed; a send rejected at its first line leaves the flag as it
    was. *)
Theorem sendMessage_pending_flag (s : Session) :
  snd (sendMessage w s) = inr tt /\
  loading (fst (sendMessage w s)) =
    if JsString.falsy (JsString.trim (input s)) || loading s
    then loading s else false.
Proof.
  destruct (JsString.falsy (JsString.trim (input s)) || loading s) eqn:G.
  - rewrite (sendMessage_rejected s G). split; reflexivity.
  - apply orb_false_iff in G.
    destruct (sendMessage_accepted_loading s G) as [H1 H2]. auto.
Qed.

(** C6: an accepted send with no conversation selected asks the backend
    for a conversation whose title is the first 50 characters of the text
    being sent (all of it when it is not longer); the row the backend
    returns is put at the head of the conversation list and selected
    before the assistant is called, and the assistant is called with its
    id; the list and the selection stay so when the send returns. *)
Theorem sendMessage_creates_conversation (s : Session) (uid : jsstring)
    (c : Conversation.t) :
  let text := JsString.trim (input s) in
  let title := JsString.slice0 50 text in
  accepted s -> selectedConversation s = None ->
  auth_getUser w = Some uid ->
  insert_conversation w uid title = inr c ->
  title = firstn 50 text /\
  (List.length text <= 50 -> title = text) /\
  (exists p1,
     conversationIdToUse w s text (pending w s) = (p1, inr (Some (Conversation.id c))) /\
     conversations p1 = c :: conversations s /\
     selectedConversation p1 = Some (Conversation.id c) /\
     trace p1 = trace s ++ [AuthGetUser; InsertConversation uid title]) /\
  (exists s' rest,
     sendMessage w s = (s', inr tt) /\
     conversations s' = c :: conversations s /\
     selectedConversation s' = Some (Conversation.id c) /\
     trace s' = trace s ++
       [AuthGetUser; InsertConversation uid title;
        InvokeAssistant (request_of w s (Some (Conversation.id c)))] ++ rest).
Proof.
  intros text title Hacc Hsel Hu Hins.
  assert (Hno : no_id (selectedConversation s) = true) by (rewrite Hsel; reflexivity).
  pose proof (conversationIdToUse_creates s (pending w s) text uid c Hno Hu Hins) as Hc.
  split; [reflexivity|].
  split; [intros Hl; apply firstn_all2; exact Hl|].
  split.
  - eexists. split; [exact Hc|]. cbn. repeat split; reflexivity.
  - rewrite (sendMessage_accepted s Hacc).
    unfold try_catch_finally, send_try. unfold bind at 1.
    fold text. rewrite Hc.
    unfold bind at 1. unfold perform at 1.
    destruct (invoke_assistant w
                (invoke_body s (tempId_of w s) text (Some (Conversation.id c))))
      as [e|resp].
    + eexists _, _. cbn. split; [reflexivity|]. cbn.
      repeat split; try reflexivity.
      rewrite <- !app_assoc. cbn. reflexivity.
    + match goal with
      | |- context [commit w ?t ?k ?p] =>
          destruct (commit_frame t k p) as (p' & E & Hcv & Hsl & Htr & _)
      end.
      rewrite E. cbn in Hcv, Hsl, Htr.
      exists (fst (setLoading false p')), []. cbn.
      rewrite Hcv, Hsl, Htr, <- !app_assoc. cbn.
      repeat split; reflexivity.
Qed.

Lemma scenario_response_displayed :
  ActionData.displayed scenario_response = js "Sure! Done.".
Proof. vm_compute. reflexivity. Qed.

(** C5: when the assistant answers an accepted send with the scenario
    text, the assistant message appended to the list has exactly the
    content [Sure! Done.]: the block between the two markers, and the
    markers, are gone and nothing is made of them. *)
Theorem sendMessage_scenario_content (s : Session) :
  accepted s -> fresh_for w s -> send_succeeds w s scenario_response ->
  exists s' m,
    sendMessage w s = (s', inr tt) /\
    messages s' = messages s ++ [committed w s; m] /\
    Message.role m = assistant /\
    Message.content m = js "Sure! Done.".
Proof.
  intros Hacc Hfresh Hok.
  destruct (sendMessage_success_run s scenario_response Hacc Hfresh Hok)
    as (s' & E & Hm & _).
  exists s', (reply w s scenario_response).
  split; [exact E|]. split; [exact Hm|]. split; [reflexivity|].
  cbn [reply Message.content]. apply scenario_response_displayed.
Qed.

End SendFacts.

Module ActionDataClaims.
Import JsString JsStringFacts ActionData ActionDataFacts.

#[local] Arguments MARKER : simpl never.





End ActionDataClaims.

Section ConversationFacts.

Variable w : World.

Lemma deleteConversation_run (s : Session) (cid : jsstring) :
  delete_conversation w cid = None ->
  deleteConversation w cid s =
  (MkSession
     (filter (fun c => negb (JsString.eqb (Conversation.id c) cid))
        (conversations s))
     (if id_is (selectedConversation s) cid then None
      else selectedConversation s)
     (if id_is (selectedConversation s) cid then [] else messages s)
     (input s) (loading s) (showHistory s) (loadingConversations s)
     (trace s ++
      [StopPropagation; DeleteMessages cid; DeleteConversationRow cid;
       ShowToast (MkToast (js "Success")
                    (js "Conversation deleted successfully") None)])
     (ticks s),
   inr tt).
Proof.
  intros Hdel. unfold deleteConversation.
  destruct s as [cs sel ms inp ld sh lc tr tk]. run_handler.
  rewrite Hdel. run_handler.
  destruct (id_is sel cid); run_handler; rewrite <- !app_assoc; reflexivity.
Qed.

Lemma loadConversations_failure_run (s : Session) (uid : jsstring) (e : JsError) :
  auth_getUser w = Some uid ->
  error (select_conversations w uid) = Some e ->
  loadConversations w s =
  (MkSession (conversations s) (selectedConversation s) (messages s)
     (input s) (loading s) (showHistory s) false
     (trace s ++
      [AuthGetUser; SelectConversations uid;
       ConsoleError (js "Error loading conversations:") e])
     (ticks s),
   inr tt).
Proof.
  intros Hu He. unfold loadConversations.
  destruct s as [cs sel ms inp ld sh lc tr tk]. run_handler.
  rewrite Hu. run_handler. rewrite He. run_handler.
  rewrite <- !app_assoc. reflexivity.
Qed.

Lemma loadConversations_head_run (s : Session) (uid : jsstring)
    (c : Conversation.t) (cs : list Conversation.t) :
  auth_getUser w = Some uid ->
  select_conversations w uid = Reply (Some (c :: cs)) None ->
  selectedConversation s = None ->
  loadConversations w s =
  (MkSession (c :: cs) (Some (Conversation.id c))
     (match error (select_messages w (Conversation.id c)) with
      | Some _ => messages s
      | None => rows (select_messages w (Conversation.id c))
      end)
     (input s) (loading s) (showHistory s) false
     (trace s ++
      [AuthGetUser; SelectConversations uid;
       SelectMessages (Conversation.id c)] ++
      match error (select_messages w (Conversation.id c)) with
      | Some e => [ConsoleError (js "Error loading messages:") e]
      | None => []
      end)
     (ticks s),
   inr tt).
Proof.
  intros Hu Hsel Hnone. unfold loadConversations, loadMessages_settle.
  destruct s as [cs0 sel ms inp ld sh lc tr tk].
  cbn [selectedConversation] in Hnone. subst sel. run_handler.
  rewrite Hu. run_handler. rewrite Hsel.
  cbv beta iota zeta delta [error data rows no_id]. run_handler.
  destruct (select_messages w (Conversation.id c)) as [d [e|]];
    run_handler; rewrite <- !app_assoc; reflexivity.
Qed.

(** C7: when the backend deletes the conversation row, the conversations
    named [cid] leave the list and the others keep their order; when
    [cid] is the selected conversation the selection is cleared and the
    message list emptied, otherwise both are as before. *)
Theorem deleteConversation_success (s : Session) (cid : jsstring) :
  delete_conversation w cid = None ->
  exists s',
    deleteConversation w cid s = (s', inr tt) /\
    conversations s' =
      filter (fun c => negb (JsString.eqb (Conversation.id c) cid))
        (conversations s) /\
    Forall (fun c => Conversation.id c <> cid) (conversations s') /\
    (selectedConversation s = Some cid ->
       selectedConversation s' = None /\ messages s' = []) /\
    (selectedConversation s <> Some cid ->
       selectedConversation s' = selectedConversation s /\
       messages s' = messages s).
Proof.
  intros Hdel. rewrite (deleteConversation_run s cid Hdel).
  eexists. split; [reflexivity|].
  cbn [conversations selectedConversation messages].
  split; [reflexivity|]. split.
  - apply Forall_forall. intros c Hc. apply filter_In in Hc.
    destruct Hc as [_ Hc]. apply negb_true_iff in Hc.
    apply JsStringFacts.eqb_neq. exact Hc.
  - split.
    + intros Hsel. rewrite Hsel. cbn [id_is].
      rewrite JsStringFacts.eqb_refl. split; reflexivity.
    + intros Hne.
      destruct (id_is (selectedConversation s) cid) eqn:Hid;
        [|split; reflexivity].
      exfalso. apply Hne.
      destruct (selectedConversation s) as [sel|]; [|discriminate].
      cbn [id_is] in Hid. apply JsStringFacts.eqb_eq in Hid. congruence.
Qed.

(** C8, as the code has it: when the read of the conversations fails,
    the error is logged, no notification is raised, the loading flag is
    cleared, and the conversation list, the selection and the messages
    are left as they were; the list is therefore empty when it was empty
    before, as it is at mount. *)
Theorem loadConversations_failure (s : Session) (uid : jsstring) (e : JsError) :
  auth_getUser w = Some uid ->
  error (select_conversations w uid) = Some e ->
  exists s',
    loadConversations w s = (s', inr tt) /\
    conversations s' = conversations s /\
    (conversations s = [] -> conversations s' = []) /\
    selectedConversation s' = selectedConversation s /\
    messages s' = messages s /\
    loadingConversations s' = false /\
    toasts (trace s') = toasts (trace s) /\
    console_errors (trace s') =
      console_errors (trace s) ++ [(js "Error loading conversations:", e)].
Proof.
  intros Hu He. rewrite (loadConversations_failure_run s uid e Hu He).
  eexists. split; [reflexivity|].
  cbn [conversations selectedConversation messages loadingConversations trace].
  rewrite toasts_app, console_errors_app.
  split; [reflexivity|]. split; [auto|]. split; [reflexivity|].
  split; [reflexivity|]. split; [reflexivity|].
  split; [apply app_nil_r | reflexivity].
Qed.

(** C9: when the read of the conversations returns a non-empty list and
    no conversation is selected, the list is shown, its head is selected
    and the messages of the head are requested; when that read succeeds
    its rows become the message list. *)
Theorem loadConversations_selects_head (s : Session) (uid : jsstring)
    (c : Conversation.t) (cs : list Conversation.t) :
  auth_getUser w = Some uid ->
  select_conversations w uid = Reply (Some (c :: cs)) None ->
  selectedConversation s = None ->
  exists s',
    loadConversations w s = (s', inr tt) /\
    conversations s' = c :: cs /\
    selectedConversation s' = Some (Conversation.id c) /\
    In (SelectMessages (Conversation.id c)) (trace s') /\
    (error (select_messages w (Conversation.id c)) = None ->
       messages s' = rows (select_messages w (Conversation.id c))) /\
    (error (select_messages w (Conversation.id c)) <> None ->
       messages s' = messages s).
Proof.
  intros Hu Hsel Hnone.
  rewrite (loadConversations_head_run s uid c cs Hu Hsel Hnone).
  eexists. split; [reflexivity|].
  cbn [conversations selectedConversation messages trace].
  split; [reflexivity|]. split; [reflexivity|]. split.
  - apply in_or_app. right. right. right. left. reflexivity.
  - split; intros H.
    + rewrite H. reflexivity.
    + destruct (error (select_messages w (Conversation.id c)));
        [reflexivity | congruence].
Qed.

End ConversationFacts.

(** ** The theorems at concrete sessions *)

Module ScenarioFacts.
Import Scenario.

Lemma s_hello_accepted : accepted s_hello.
Proof. split; reflexivity. Defined.

Lemma s_hello_fresh (w : World) : fresh_for w s_hello.
Proof.
  unfold fresh_for. cbn [messages s_hello].
  constructor; [|constructor].
  intros H. discriminate H.
Defined.

Lemma s_hello_succeeds : send_succeeds w_ok s_hello scenario_response.
Proof. exists (Some (js "B")). split; reflexivity. Defined.

Lemma s_hello_fails : send_fails w_down s_hello failure.
Proof. right. exists (Some (js "B")). split; reflexivity. Defined.

Lemma sendMessage_commits_optimistic_witness :
  accepted s_hello /\ fresh_for w_ok s_hello /\
  send_succeeds w_ok s_hello scenario_response /\
  exists s',
    sendMessage w_ok s_hello = (s', inr tt) /\
    messages s' =
      [earlier; committed w_ok s_hello; reply w_ok s_hello scenario_response].
Proof.
  split; [exact s_hello_accepted|].
  split; [exact (s_hello_fresh w_ok)|].
  split; [exact s_hello_succeeds|].
  destruct (sendMessage_commits_optimistic w_ok s_hello scenario_response
              s_hello_accepted (s_hello_fresh w_ok) s_hello_succeeds)
    as (s' & E & _ & _ & Hm & _).
  exists s'. split; [exact E | exact Hm].
Defined.

Lemma sendMessage_rolls_back_witness :
  accepted s_hello /\ fresh_for w_down s_hello /\
  send_fails w_down s_hello failure /\
  exists s',
    sendMessage w_down s_hello = (s', inr tt) /\
    messages s' = [earlier] /\
    toasts (trace s') =
      [MkToast (js "Error") (js "Failed to fetch") (Some (js "destructive"))].
Proof.
  split; [exact s_hello_accepted|].
  split; [exact (s_hello_fresh w_down)|].
  split; [exact s_hello_fails|].
  exact (sendMessage_rolls_back w_down s_hello failure
           s_hello_accepted (s_hello_fresh w_down) s_hello_fails).
Defined.

Lemma sendMessage_scenario_content_witness :
  exists s' m,
    sendMessage w_ok s_hello = (s', inr tt) /\
    messages s' = [earlier; committed w_ok s_hello; m] /\
    Message.role m = assistant /\
    Message.content m = js "Sure! Done.".
Proof.
  exact (sendMessage_scenario_content w_ok s_hello
           s_hello_accepted (s_hello_fresh w_ok) s_hello_succeeds).
Defined.

Lemma sendMessage_creates_conversation_witness :
  exists s' rest,
    sendMessage w_ok s_first = (s', inr tt) /\
    conversations s' = [Conversation.mk (js "C") (js "hello") (js "10:05")] /\
    selectedConversation s' = Some (js "C") /\
    trace s' =
      [AuthGetUser; InsertConversation (js "u1") (js "hello");
       InvokeAssistant (request_of w_ok s_first (Some (js "C")))] ++ rest.
Proof.
  assert (Ha : accepted s_first) by (split; reflexivity).
  destruct (sendMessage_creates_conversation w_ok s_first (js "u1")
              (Conversation.mk (js "C") (js "hello") (js "10:05"))
              Ha eq_refl eq_refl eq_refl)
    as (_ & _ & _ & H).
  exact H.
Defined.

(** Against C4 as it is worded: after a send is rejected because another
    one is pending, the pending flag is still set. *)
Lemma sendMessage_rejected_while_pending :
  loading (fst (sendMessage w_ok (pending w_ok s_hello))) <> false.
Proof. vm_compute. discriminate. Qed.

(** The second block and the last marker of [two_blocks] are displayed. *)
Example two_blocks_displayed :
  ActionData.displayed two_blocks =
  js "A B__ACTION_DATA__y__ACTION_DATA__C__ACTION_DATA__".
Proof. vm_compute. reflexivity. Qed.

(** Two markers with nothing between them are no block. *)
Example empty_block_kept :
  ActionData.displayed (js "a__ACTION_DATA____ACTION_DATA__b") =
  js "a__ACTION_DATA____ACTION_DATA__b".
Proof. vm_compute. reflexivity. Qed.

Lemma deleteConversation_success_witness :
  (exists s',
     deleteConversation w_ok (js "B") s_hello = (s', inr tt) /\
     conversations s' = [convA] /\
     selectedConversation s' = None /\ messages s' = []) /\
  (exists s',
     deleteConversation w_ok (js "A") s_hello = (s', inr tt) /\
     conversations s' = [convB] /\
     selectedConversation s' = Some (js "B") /\ messages s' = [earlier]).
Proof.
  split.
  - destruct (deleteConversation_success w_ok s_hello (js "B") eq_refl)
      as (s' & E & Hc & _ & Hsel & _).
    destruct (Hsel eq_refl) as [H1 H2].
    exists s'. repeat split; assumption.
  - destruct (deleteConversation_success w_ok s_hello (js "A") eq_refl)
      as (s' & E & Hc & _ & _ & Hne).
    assert (Hd : selectedConversation s_hello <> Some (js "A")).
    { intros H. discriminate H. }
    destruct (Hne Hd) as [H1 H2].
    exists s'. repeat split; assumption.
Defined.

(** Against C8 as it is worded: with a conversation list already shown,
    a failed read leaves it shown; the list does not become empty. *)
Lemma loadConversations_failure_keeps_list :
  error (select_conversations w_down (js "u1")) = Some failure /\
  conversations (fst (loadConversations w_down s_hello)) <> [].
Proof. split; [reflexivity|]. vm_compute. discriminate. Qed.

Lemma loadConversations_failure_witness :
  exists s',
    loadConversations w_down initial = (s', inr tt) /\
    conversations s' = [] /\
    loadingConversations s' = false /\
    toasts (trace s') = [] /\
    console_errors (trace s') = [(js "Error loading conversations:", failure)].
Proof.
  destruct (loadConversations_failure w_down initial (js "u1") failure
              eq_refl eq_refl)
    as (s' & E & _ & Hc & _ & _ & Hl & Ht & Hce).
  exists s'. repeat split; try assumption. exact (Hc eq_refl).
Defined.

Lemma loadConversations_selects_head_witness :
  exists s',
    loadConversations w_ok initial = (s', inr tt) /\
    conversations s' = [convA; convB] /\
    selectedConversation s' = Some (js "A") /\
    messages s' = [earlier].
Proof.
  destruct (loadConversations_selects_head w_ok initial (js "u1") convA [convB]
              eq_refl eq_refl eq_refl)
    as (s' & E & Hc & Hs & _ & Hm & _).
  exists s'. repeat split; try assumption. exact (Hm eq_refl).
Defined.

End ScenarioFacts.

(** ** Further properties of the conversation handlers *)

Lemma invocations_app (a b : list Effect) :
  invocations (a ++ b) = invocations a ++ invocations b.
Proof. apply flat_map_app. Qed.

Section LoadFacts.

Variable w : World.

#[local] Arguments JsString.lit : simpl never.

Ltac run_reply :=
  cbv beta iota zeta delta [error data rows no_id JsString.falsy].

Lemma loadConversations_returns (s : Session) :
  exists s',
    loadConversations w s = (s', inr tt) /\
    loadingConversations s' = false /\
    toasts (trace s') = toasts (trace s) /\
    input s' = input s /\ loading s' = loading s /\
    showHistory s' = showHistory s.
Proof.
  destruct s as [cs sel ms inp ld sh lc tr tk].
  unfold loadConversations, loadMessages_settle. run_handler.
  destruct (auth_getUser w) as [uid|]; run_handler.
  - destruct (select_conversations w uid) as [d [e|]]; run_reply; run_handler.
    + eexists. split; [reflexivity|]. cbn.
      rewrite <- ?app_assoc, toasts_app. cbn. rewrite app_nil_r.
      repeat split; reflexivity.
    + destruct d as [[|c cs']|]; run_handler.
      * eexists. split; [reflexivity|]. cbn.
        rewrite <- ?app_assoc, toasts_app. cbn. rewrite app_nil_r.
        repeat split; reflexivity.
      * destruct sel as [[|x sel]|]; run_reply; run_handler;
          try (eexists; split; [reflexivity|]; cbn;
               rewrite <- ?app_assoc, toasts_app; cbn; rewrite app_nil_r;
               repeat split; reflexivity);
          destruct (select_messages w (Conversation.id c)) as [d2 [e2|]];
          run_reply; run_handler;
          eexists; (split; [reflexivity|]); cbn;
          rewrite <- ?app_assoc, toasts_app; cbn; rewrite app_nil_r;
          repeat split; reflexivity.
      * eexists. split; [reflexivity|]. cbn.
        rewrite <- ?app_assoc, toasts_app. cbn. rewrite app_nil_r.
        repeat split; reflexivity.
  - eexists. split; [reflexivity|]. cbn.
    rewrite toasts_app. cbn. rewrite app_nil_r.
    repeat split; reflexivity.
Qed.

(** X1: whatever the identity provider and the tables answer,
    [loadConversations] returns normally with the loading flag of the
    history cleared, raises no notification and leaves the input, the
    pending flag and the history panel alone. *)
Theorem loadConversations_always (s : Session) :
  exists s',
    loadConversations w s = (s', inr tt) /\
    loadingConversations s' = false /\
    toasts (trace s') = toasts (trace s) /\
    input s' = input s /\ loading s' = loading s /\
    showHistory s' = showHistory s.
Proof.
  destruct (loadConversations_returns s) as (s' & E & Hl & Ht & Hi & Hp & Hh).
  exists s'. split; [exact E|]. split; [exact Hl|]. split; [exact Ht|].
  split; [exact Hi|]. split; [exact Hp | exact Hh].
Qed.

(** X2: without a signed-in user [loadConversations] asks the identity
    provider and nothing else: no table is read, and the state is as
    before but for the cleared loading flag. *)
Theorem loadConversations_signed_out (s : Session) :
  auth_getUser w = None ->
  loadConversations w s =
  (MkSession (conversations s) (selectedConversation s) (messages s)
     (input s) (loading s) (showHistory s) false
     (trace s ++ [AuthGetUser]) (ticks s),
   inr tt).
Proof.
  intros Hu. destruct s as [cs sel ms inp ld sh lc tr tk].
  unfold loadConversations. run_handler. rewrite Hu. run_handler.
  reflexivity.
Qed.

End LoadFacts.

Section SelectFacts.

Variable w : World.

#[local] Arguments JsString.lit : simpl never.

Ltac run_reply' :=
  cbv beta iota zeta delta [error data rows no_id JsString.falsy].

Lemma loadMessages_run (s : Session) (cid : jsstring) :
  loadMessages w cid s =
  (MkSession (conversations s) (selectedConversation s)
     (match error (select_messages w cid) with
      | Some _ => messages s
      | None => rows (select_messages w cid)
      end)
     (input s) (loading s) (showHistory s) (loadingConversations s)
     (trace s ++ SelectMessages cid ::
        match error (select_messages w cid) with
        | Some e => [ConsoleError (js "Error loading messages:") e]
        | None => []
        end)
     (ticks s),
   inr tt).
Proof.
  destruct s as [cs sel ms inp ld sh lc tr tk].
  unfold loadMessages, loadMessages_settle. run_handler.
  destruct (select_messages w cid) as [d [e|]]; run_reply'; run_handler;
    rewrite <- ?app_assoc; reflexivity.
Qed.

(** X4: [loadMessages] always returns normally and raises no
    notification; it changes the message list only, to the rows read, and
    on a failed read it keeps the list that was shown and logs the
    error. *)
Theorem loadMessages_effect (s : Session) (cid : jsstring) :
  exists s',
    loadMessages w cid s = (s', inr tt) /\
    conversations s' = conversations s /\
    selectedConversation s' = selectedConversation s /\
    input s' = input s /\ loading s' = loading s /\
    showHistory s' = showHistory s /\
    loadingConversations s' = loadingConversations s /\
    toasts (trace s') = toasts (trace s) /\
    (error (select_messages w cid) = None ->
       messages s' = rows (select_messages w cid)) /\
    (forall e, error (select_messages w cid) = Some e ->
       messages s' = messages s /\
       console_errors (trace s') =
         console_errors (trace s) ++ [(js "Error loading messages:", e)]).
Proof.
  rewrite loadMessages_run. eexists. split; [reflexivity|].
  cbn [conversations selectedConversation input loading showHistory
       loadingConversations messages trace].
  rewrite toasts_app, console_errors_app.
  split; [reflexivity|]. split; [reflexivity|]. split; [reflexivity|].
  split; [reflexivity|]. split; [reflexivity|]. split; [reflexivity|].
  destruct (error (select_messages w cid)) as [e|].
  - split; [apply app_nil_r|]. split; [discriminate|].
    intros e' E. injection E as <-. split; reflexivity.
  - split; [apply app_nil_r|]. split; [reflexivity|]. discriminate.
Qed.

(** X5: a click on an entry of the history selects it and closes the
    panel whatever the backend answers; the messages become the rows of
    the entry when the read succeeds, and when it fails the list of the
    conversation shown before stays under the new selection. *)
Theorem onSelectConversation_effect (s : Session) (cid : jsstring) :
  exists s',
    onSelectConversation w cid s = (s', inr tt) /\
    selectedConversation s' = Some cid /\
    showHistory s' = false /\
    conversations s' = conversations s /\
    toasts (trace s') = toasts (trace s) /\
    (error (select_messages w cid) = None ->
       messages s' = rows (select_messages w cid)) /\
    (error (select_messages w cid) <> None -> messages s' = messages s).
Proof.
  destruct s as [cs sel ms inp ld sh lc tr tk].
  unfold onSelectConversation, loadMessages_settle, setShowHistory.
  run_handler.
  destruct (select_messages w cid) as [d [e|]]; run_reply'; run_handler;
    (eexists; split; [reflexivity|]); cbn;
    rewrite <- ?app_assoc, toasts_app; cbn; rewrite app_nil_r;
    repeat split; try reflexivity; try discriminate; congruence.
Qed.

(** X6: when the insert succeeds, [createNewConversation] puts the new
    row at the head of the list, selects it, empties the message list and
    discards the text typed so far; it raises no notification. *)
Theorem createNewConversation_success (s : Session) (uid : jsstring)
    (c : Conversation.t) :
  auth_getUser w = Some uid ->
  insert_conversation w uid (js "New Conversation") = inr c ->
  createNewConversation w s =
  (MkSession (c :: conversations s) (Some (Conversation.id c)) [] []
     (loading s) (showHistory s) (loadingConversations s)
     (trace s ++ [AuthGetUser; InsertConversation uid (js "New Conversation")])
     (ticks s),
   inr tt).
Proof.
  intros Hu Hins. destruct s as [cs sel ms inp ld sh lc tr tk].
  unfold createNewConversation. run_handler. rewrite Hu. run_handler.
  rewrite Hins. run_handler. rewrite <- !app_assoc. reflexivity.
Qed.

(** X7: when the insert fails, [createNewConversation] leaves the list,
    the selection, the messages and the input as they were, logs the
    error and raises one notification. *)
Theorem createNewConversation_failure (s : Session) (uid : jsstring)
    (e : JsError) :
  auth_getUser w = Some uid ->
  insert_conversation w uid (js "New Conversation") = inl e ->
  createNewConversation w s =
  (MkSession (conversations s) (selectedConversation s) (messages s)
     (input s) (loading s) (showHistory s) (loadingConversations s)
     (trace s ++
      [AuthGetUser; InsertConversation uid (js "New Conversation");
       ConsoleError (js "Error creating conversation:") e;
       ShowToast (MkToast (js "Error") (js "Failed to create new conversation")
                    (Some (js "destructive")))])
     (ticks s),
   inr tt).
Proof.
  intros Hu Hins. destruct s as [cs sel ms inp ld sh lc tr tk].
  unfold createNewConversation. run_handler. rewrite Hu. run_handler.
  rewrite Hins. run_handler. rewrite <- !app_assoc. reflexivity.
Qed.

(** X8: without a signed-in user [createNewConversation] does nothing
    the user can see: no insert is requested, no notification raised, no
    error logged, and the state is as before. *)
Theorem createNewConversation_signed_out (s : Session) :
  auth_getUser w = None ->
  createNewConversation w s =
  (MkSession (conversations s) (selectedConversation s) (messages s)
     (input s) (loading s) (showHistory s) (loadingConversations s)
     (trace s ++ [AuthGetUser]) (ticks s),
   inr tt).
Proof.
  intros Hu. destruct s as [cs sel ms inp ld sh lc tr tk].
  unfold createNewConversation. run_handler. rewrite Hu. run_handler.
  reflexivity.
Qed.

Lemma deleteConversation_failure_run (s : Session) (cid : jsstring) (e : JsError) :
  delete_conversation w cid = Some e ->
  deleteConversation w cid s =
  (MkSession (conversations s) (selectedConversation s) (messages s)
     (input s) (loading s) (showHistory s) (loadingConversations s)
     (trace s ++
      [StopPropagation; DeleteMessages cid; DeleteConversationRow cid;
       ConsoleError (js "Error deleting conversation:") e;
       ShowToast (MkToast (js "Error") (js "Failed to delete conversation")
                    (Some (js "destructive")))])
     (ticks s),
   inr tt).
Proof.
  intros Hdel. destruct s as [cs sel ms inp ld sh lc tr tk].
  unfold deleteConversation. run_handler. rewrite Hdel. run_handler.
  rewrite <- !app_assoc. reflexivity.
Qed.

(** X9: when the backend refuses to delete the conversation row,
    [deleteConversation] leaves the list, the selection and the messages
    as they were, logs the error and raises one error notification; the
    deletion of the messages had been requested before. *)
Theorem deleteConversation_failure (s : Session) (cid : jsstring) (e : JsError) :
  delete_conversation w cid = Some e ->
  exists s',
    deleteConversation w cid s = (s', inr tt) /\
    conversations s' = conversations s /\
    selectedConversation s' = selectedConversation s /\
    messages s' = messages s /\
    In (DeleteMessages cid) (trace s') /\
    toasts (trace s') =
      toasts (trace s) ++
      [MkToast (js "Error") (js "Failed to delete conversation")
         (Some (js "destructive"))] /\
    console_errors (trace s') =
      console_errors (trace s) ++ [(js "Error deleting conversation:", e)].
Proof.
  intros Hdel. rewrite (deleteConversation_failure_run s cid e Hdel).
  eexists. split; [reflexivity|].
  cbn [conversations selectedConversation messages trace].
  rewrite toasts_app, console_errors_app.
  split; [reflexivity|]. split; [reflexivity|]. split; [reflexivity|].
  split; [|split; reflexivity].
  apply in_or_app. right. right. left. reflexivity.
Qed.

(** X10: whatever the backend answers, [deleteConversation] returns
    normally, asks for the deletion of the messages before that of the
    conversation row, and raises exactly one notification. *)
Theorem deleteConversation_order (s : Session) (cid : jsstring) :
  exists s' rest t,
    deleteConversation w cid s = (s', inr tt) /\
    trace s' =
      trace s ++
      [StopPropagation; DeleteMessages cid; DeleteConversationRow cid] ++ rest /\
    toasts (trace s') = toasts (trace s) ++ [t].
Proof.
  destruct (delete_conversation w cid) as [e|] eqn:Hdel.
  - rewrite (deleteConversation_failure_run s cid e Hdel).
    eexists _, _, _. split; [reflexivity|]. cbn [trace].
    split.
    + cbn [app]. reflexivity.
    + rewrite toasts_app. reflexivity.
  - rewrite (deleteConversation_run w s cid Hdel).
    eexists _, _, _. split; [reflexivity|]. cbn [trace].
    split.
    + cbn [app]. reflexivity.
    + rewrite toasts_app. reflexivity.
Qed.

Lemma filter_other_ids (cid : jsstring) (l : list Conversation.t) :
  filter (fun c => negb (JsString.eqb (Conversation.id c) cid))
    (filter (fun c => negb (JsString.eqb (Conversation.id c) cid)) l) =
  filter (fun c => negb (JsString.eqb (Conversation.id c) cid)) l.
Proof.
  induction l as [|c l IH]; [reflexivity|].
  cbn [filter].
  destruct (negb (JsString.eqb (Conversation.id c) cid)) eqn:E; [|exact IH].
  cbn [filter]. rewrite E, IH. reflexivity.
Qed.

(** X11: deleting the same conversation a second time changes nothing
    more: the list, the selection and the messages are those left by the
    first successful deletion. *)
Theorem deleteConversation_twice (s : Session) (cid : jsstring) :
  delete_conversation w cid = None ->
  let s1 := fst (deleteConversation w cid s) in
  let s2 := fst (deleteConversation w cid s1) in
  conversations s2 = conversations s1 /\
  selectedConversation s2 = selectedConversation s1 /\
  messages s2 = messages s1.
Proof.
  intros Hdel. cbv zeta.
  rewrite (deleteConversation_run w s cid Hdel). cbn [fst].
  rewrite (deleteConversation_run w _ cid Hdel).
  cbn [fst conversations selectedConversation messages].
  split; [apply filter_other_ids|].
  destruct (id_is (selectedConversation s) cid) eqn:Hid.
  - split; reflexivity.
  - rewrite Hid. split; reflexivity.
Qed.

(** X12: [checkAuth] sends a visitor who is not signed in to [/auth]
    and reads no table; for a signed-in user it does not navigate and
    runs [loadConversations]. *)
Theorem checkAuth_effect (s : Session) :
  (auth_getUser w = None ->
     checkAuth w s =
     (MkSession (conversations s) (selectedConversation s) (messages s)
        (input s) (loading s) (showHistory s) (loadingConversations s)
        (trace s ++ [AuthGetUser]) (ticks s),
      inr (Some (js "/auth")))) /\
  (auth_getUser w <> None ->
     checkAuth w s =
     (fst (loadConversations w (fst (perform AuthGetUser s))), inr None)).
Proof.
  split; intros Hu.
  - destruct s as [cs sel ms inp ld sh lc tr tk].
    unfold checkAuth. run_handler. rewrite Hu. reflexivity.
  - destruct (auth_getUser w) as [uid|] eqn:Hu'; [|congruence].
    destruct (loadConversations_returns w (fst (perform AuthGetUser s)))
      as (s' & E & _).
    unfold checkAuth, getUser. unfold bind at 1. unfold bind at 1.
    unfold perform at 1. unfold ret at 1. rewrite Hu'.
    unfold bind. unfold perform in E. cbn [fst] in E. rewrite E.
    unfold perform. cbn [fst]. rewrite E. reflexivity.
Qed.

End SelectFacts.

Section SendMoreFacts.

Variable w : World.

#[local] Arguments JsString.lit : simpl never.
#[local] Arguments JsString.trim : simpl never.
#[local] Arguments JsString.slice0 : simpl never.
#[local] Arguments JsString.of_Z : simpl never.
#[local] Arguments ActionData.displayed : simpl never.

Lemma after_catch_fields (t : jsstring) (e : JsError) (p : Session) :
  after_catch t e p =
  MkSession (conversations p) (selectedConversation p)
    (filter (fun m => negb (JsString.eqb (Message.id m) t)) (messages p))
    (input p) false (showHistory p) (loadingConversations p)
    (trace p ++
     [ConsoleError (js "Error sending message:") e;
      ShowToast (MkToast (js "Error")
                   (message_or e (js "Failed to send message"))
                   (Some (js "destructive")))])
    (ticks p).
Proof.
  destruct p as [cs sel ms inp ld sh lc tr tk].
  unfold after_catch, send_catch. run_handler.
  rewrite <- !app_assoc. reflexivity.
Qed.

(** The three ways an accepted send can go. *)
Lemma sendMessage_shape (s : Session) :
  accepted s ->
  let t := tempId_of w s in
  let um := JsString.trim (input s) in
  let p1 := fst (conversationIdToUse w s um (pending w s)) in
  match conversation_result w s with
  | inl e => sendMessage w s = (after_catch t e p1, inr tt)
  | inr cid =>
      let p2 := fst (perform (InvokeAssistant (request_of w s cid)) p1) in
      match invoke_assistant w (request_of w s cid) with
      | inl e => sendMessage w s = (after_catch t e p2, inr tt)
      | inr response =>
          sendMessage w s =
          (fst (setLoading false
                  (fst (commit w t (ActionData.displayed response) p2))),
           inr tt)
      end
  end.
Proof.
  intros Hacc. cbv zeta.
  pose proof (conversationIdToUse_result w s (pending w s)) as R.
  destruct (conversationIdToUse w s (JsString.trim (input s)) (pending w s))
    as [p1 r] eqn:EC.
  cbn [fst snd] in R |- *. subst r.
  destruct (conversation_result w s) as [e|cid].
  - rewrite (sendMessage_accepted w s Hacc).
    unfold try_catch_finally, send_try. unfold bind at 1. rewrite EC.
    unfold after_catch.
    destruct (send_catch (tempId_of w s) e p1) as [q [x|[]]] eqn:E;
      [|reflexivity].
    exfalso. revert E. destruct p1. unfold send_catch. run_handler.
    discriminate.
  - unfold request_of.
    destruct (invoke_assistant w
                (invoke_body s (tempId_of w s) (JsString.trim (input s)) cid))
      as [e|response] eqn:EI.
    + rewrite (sendMessage_accepted w s Hacc).
      unfold try_catch_finally, send_try. unfold bind at 1. rewrite EC.
      unfold bind at 1. unfold perform at 1. rewrite EI.
      unfold after_catch, throw, perform. cbn [fst].
      match goal with
      | |- context [send_catch ?t ?e ?p] =>
          destruct (send_catch t e p) as [q [x|[]]] eqn:E; [|reflexivity]
      end.
      exfalso. revert E. unfold send_catch. run_handler. discriminate.
    + rewrite (sendMessage_accepted w s Hacc).
      unfold try_catch_finally, send_try. unfold bind at 1. rewrite EC.
      unfold bind at 1. unfold perform at 1. rewrite EI.
      unfold perform. cbn [fst].
      match goal with
      | |- context [commit w ?t ?k ?p] =>
          destruct (commit_frame w t k p) as (p' & E & _)
      end.
      rewrite E. reflexivity.
Qed.

Lemma conversationIdToUse_selected (snap p : Session) (um : jsstring) :
  no_id (selectedConversation snap) = false ->
  conversationIdToUse w snap um p = (p, inr (selectedConversation snap)).
Proof.
  intros H. unfold conversationIdToUse. rewrite H. reflexivity.
Qed.

Lemma conversationIdToUse_signed_out (snap p : Session) (um : jsstring) :
  no_id (selectedConversation snap) = true ->
  auth_getUser w = None ->
  conversationIdToUse w snap um p =
  (fst (perform AuthGetUser p),
   inl (Error (Some (js "User not authenticated")))).
Proof.
  intros H Hu. unfold conversationIdToUse. rewrite H.
  destruct p. run_handler. rewrite Hu. reflexivity.
Qed.

Lemma conversationIdToUse_refused (snap p : Session) (um uid : jsstring)
    (e : JsError) :
  no_id (selectedConversation snap) = true ->
  auth_getUser w = Some uid ->
  insert_conversation w uid (JsString.slice0 50 um) = inl e ->
  conversationIdToUse w snap um p =
  (MkSession (conversations p) (selectedConversation p) (messages p)
     (input p) (loading p) (showHistory p) (loadingConversations p)
     (trace p ++ [AuthGetUser; InsertConversation uid (JsString.slice0 50 um)])
     (ticks p),
   inl e).
Proof.
  intros H Hu Hins. unfold conversationIdToUse. rewrite H.
  destruct p. run_handler. rewrite Hu. run_handler. rewrite Hins.
  run_handler. rewrite <- !app_assoc. reflexivity.
Qed.

(** How lines 196-217 can end well: a conversation was selected, or one
    was created. *)
Lemma conversation_result_inr (s : Session) (cid : option jsstring) :
  conversation_result w s = inr cid ->
  (no_id (selectedConversation s) = false /\ cid = selectedConversation s) \/
  (no_id (selectedConversation s) = true /\
   exists uid c,
     auth_getUser w = Some uid /\
     insert_conversation w uid
       (JsString.slice0 50 (JsString.trim (input s))) = inr c /\
     cid = Some (Conversation.id c)).
Proof.
  unfold conversation_result.
  destruct (no_id (selectedConversation s)).
  - destruct (auth_getUser w) as [uid|]; [|discriminate].
    destruct (insert_conversation w uid _) as [e|c] eqn:Hins; [discriminate|].
    intros E. injection E as <-. right. split; [reflexivity|].
    exists uid, c. auto.
  - intros E. injection E as <-. left. auto.
Qed.

(** How they can fail: nothing was selected, and the user is unknown or
    the insert was refused. *)
Lemma conversation_result_inl (s : Session) (e : JsError) :
  conversation_result w s = inl e ->
  no_id (selectedConversation s) = true /\
  ((auth_getUser w = None /\
    e = Error (Some (js "User not authenticated"))) \/
   exists uid,
     auth_getUser w = Some uid /\
     insert_conversation w uid
       (JsString.slice0 50 (JsString.trim (input s))) = inl e).
Proof.
  unfold conversation_result.
  destruct (no_id (selectedConversation s)); [|discriminate].
  intros E. split; [reflexivity|].
  destruct (auth_getUser w) as [uid|].
  - destruct (insert_conversation w uid _) as [e'|c] eqn:Hins; [|discriminate].
    injection E as <-. right. exists uid. auto.
  - injection E as <-. left. auto.
Qed.

(** With a fresh list the history sent to the assistant is the whole
    list. *)
Lemma request_of_fresh (s : Session) (cid : option jsstring) :
  fresh_for w s ->
  request_of w s cid =
  MkBody (JsString.trim (input s)) cid
    (map (fun m => (Message.role m, Message.content m)) (messages s)).
Proof.
  intros Hf. unfold request_of, invoke_body. f_equal. f_equal.
  unfold fresh_for in Hf. induction Hf as [|m l Hm _ IH]; [reflexivity|].
  cbn [filter]. apply JsStringFacts.eqb_neq in Hm. rewrite Hm. cbn [negb].
  f_equal. exact IH.
Qed.

Lemma conversationIdToUse_invocations (snap p : Session) (um : jsstring) :
  invocations (trace (fst (conversationIdToUse w snap um p))) =
  invocations (trace p).
Proof.
  destruct (no_id (selectedConversation snap)) eqn:Hsel.
  - destruct (auth_getUser w) as [uid|] eqn:Hu.
    + destruct (insert_conversation w uid (JsString.slice0 50 um))
        as [e|c] eqn:Hins.
      * rewrite (conversationIdToUse_refused snap p um uid e Hsel Hu Hins).
        cbn [fst trace]. rewrite invocations_app. apply app_nil_r.
      * rewrite (conversationIdToUse_creates w snap p um uid c Hsel Hu Hins).
        cbn [fst trace]. rewrite invocations_app. apply app_nil_r.
    + rewrite (conversationIdToUse_signed_out snap p um Hsel Hu).
      unfold perform. cbn [fst trace]. rewrite invocations_app.
      apply app_nil_r.
  - rewrite (conversationIdToUse_selected snap p um Hsel). reflexivity.
Qed.

(** What an accepted send whose conversation is settled leaves: the
    state [p1] reached before the call, one more request to the
    assistant, an empty input. *)
Lemma sendMessage_invokes (s : Session) (cid : option jsstring) :
  accepted s -> conversation_result w s = inr cid ->
  let p1 := fst (conversationIdToUse w s (JsString.trim (input s)) (pending w s)) in
  exists s',
    sendMessage w s = (s', inr tt) /\
    conversations s' = conversations p1 /\
    selectedConversation s' = selectedConversation p1 /\
    input s' = [] /\
    invocations (trace s') = invocations (trace s) ++ [request_of w s cid] /\
    exists rest,
      trace s' = trace p1 ++ [InvokeAssistant (request_of w s cid)] ++ rest /\
      Forall (fun e => is_backend_request e = false) rest.
Proof.
  intros Hacc Hconv p1.
  pose proof (sendMessage_shape s Hacc) as Hshape. cbv zeta in Hshape.
  rewrite Hconv in Hshape. fold p1 in Hshape.
  pose proof (conversationIdToUse_invocations s (pending w s)
                (JsString.trim (input s))) as Hinv.
  fold p1 in Hinv. cbn [pending trace] in Hinv.
  destruct (conversationIdToUse_frame w s (pending w s)
              (JsString.trim (input s))) as (_ & Hin & _).
  fold p1 in Hin. cbn [pending input] in Hin.
  destruct (invoke_assistant w (request_of w s cid)) as [e|response].
  - rewrite Hshape, after_catch_fields. unfold perform.
    eexists. split; [reflexivity|].
    cbn [fst conversations selectedConversation input trace].
    split; [reflexivity|]. split; [reflexivity|]. split; [exact Hin|].
    split.
    + rewrite !invocations_app, Hinv. cbn. rewrite app_nil_r. reflexivity.
    + eexists. rewrite <- app_assoc. split; [reflexivity|].
      repeat constructor.
  - match type of Hshape with
    | context [commit w ?t ?k ?p] =>
        destruct (commit_frame w t k p) as (p' & E & Hc & Hs & Ht & Hi & _)
    end.
    rewrite E in Hshape. rewrite Hshape.
    unfold perform in Hc, Hs, Ht, Hi.
    cbn [fst conversations selectedConversation input trace] in Hc, Hs, Ht, Hi.
    eexists. split; [reflexivity|].
    unfold setLoading.
    cbn [fst conversations selectedConversation input trace].
    split; [exact Hc|]. split; [exact Hs|].
    split; [rewrite Hi; exact Hin|].
    split.
    + rewrite Ht, invocations_app, Hinv. reflexivity.
    + exists []. rewrite Ht. split; [reflexivity | constructor].
Qed.

(** X13: an accepted send whose conversation is settled calls the
    assistant exactly once, with the trimmed text, the id of the
    conversation and, as history, the role and content of every message
    of the list before the send, in order; the optimistic message is not
    part of the history. *)
Theorem sendMessage_request (s : Session) (cid : option jsstring) :
  accepted s -> fresh_for w s -> conversation_result w s = inr cid ->
  exists s',
    sendMessage w s = (s', inr tt) /\
    invocations (trace s') =
      invocations (trace s) ++
      [MkBody (JsString.trim (input s)) cid
         (map (fun m => (Message.role m, Message.content m)) (messages s))].
Proof.
  intros Hacc Hfresh Hconv.
  destruct (sendMessage_invokes s cid Hacc Hconv)
    as (s' & E & _ & _ & _ & Hinv & _).
  exists s'. split; [exact E|].
  rewrite Hinv, (request_of_fresh s cid Hfresh). reflexivity.
Qed.

(** X14: an accepted send with a conversation selected leaves the
    conversation list and the selection as they are and asks nothing of
    the identity provider or the tables, whether the assistant answers or
    fails. *)
Theorem sendMessage_selected (s : Session) :
  accepted s -> no_id (selectedConversation s) = false ->
  exists s',
    sendMessage w s = (s', inr tt) /\
    conversations s' = conversations s /\
    selectedConversation s' = selectedConversation s /\
    filter is_backend_request (trace s') = filter is_backend_request (trace s) /\
    invocations (trace s') =
      invocations (trace s) ++ [request_of w s (selectedConversation s)].
Proof.
  intros Hacc Hsel.
  assert (Hconv : conversation_result w s = inr (selectedConversation s)).
  { unfold conversation_result. rewrite Hsel. reflexivity. }
  destruct (sendMessage_invokes s _ Hacc Hconv)
    as (s' & E & Hc & Hs & _ & Hinv & rest & Ht & Hrest).
  rewrite (conversationIdToUse_selected s (pending w s) _ Hsel) in Hc, Hs, Ht.
  cbn [fst pending conversations selectedConversation trace] in Hc, Hs, Ht.
  exists s'. split; [exact E|]. split; [exact Hc|]. split; [exact Hs|].
  split; [|exact Hinv].
  rewrite Ht, !filter_app. cbn [filter is_backend_request app].
  rewrite <- (app_nil_r (filter is_backend_request (trace s))) at 2.
  f_equal. clear Ht. induction Hrest as [|e rest He _ IH]; [reflexivity|].
  cbn [filter]. rewrite He. exact IH.
Qed.

(** X15: when the conversation cannot be created for an accepted send
    (no signed-in user, or the insert is refused), the assistant is not
    called, the conversation list and the selection stay as they were,
    and the notification carries the reason. *)
Theorem sendMessage_creation_failure (s : Session) (e : JsError) :
  accepted s -> conversation_result w s = inl e ->
  exists s',
    sendMessage w s = (s', inr tt) /\
    invocations (trace s') = invocations (trace s) /\
    conversations s' = conversations s /\
    selectedConversation s' = selectedConversation s /\
    toasts (trace s') =
      toasts (trace s) ++
      [MkToast (js "Error") (message_or e (js "Failed to send message"))
         (Some (js "destructive"))].
Proof.
  intros Hacc Hconv.
  pose proof (sendMessage_shape s Hacc) as Hshape. cbv zeta in Hshape.
  rewrite Hconv in Hshape. rewrite Hshape, after_catch_fields.
  pose proof (conversationIdToUse_invocations s (pending w s)
                (JsString.trim (input s))) as Hinv.
  destruct (conversationIdToUse_frame w s (pending w s)
              (JsString.trim (input s))) as (_ & _ & _ & _ & Hto).
  cbn [pending trace] in Hinv, Hto.
  eexists. split; [reflexivity|].
  cbn [conversations selectedConversation trace].
  rewrite invocations_app, toasts_app, Hinv, Hto.
  split; [apply app_nil_r|].
  destruct (conversation_result_inl s e Hconv) as [Hsel [[Hu _]|(uid & Hu & Hins)]].
  - rewrite (conversationIdToUse_signed_out s (pending w s) _ Hsel Hu).
    repeat split; reflexivity.
  - rewrite (conversationIdToUse_refused s (pending w s) _ uid e Hsel Hu Hins).
    repeat split; reflexivity.
Qed.

(** X16: when the conversation is created for an accepted send and the
    assistant then fails, the message list goes back to what it was but
    the new conversation stays: it heads the list and is selected. *)
Theorem sendMessage_rollback_keeps_conversation (s : Session) (uid : jsstring)
    (c : Conversation.t) (e : JsError) :
  accepted s -> fresh_for w s ->
  no_id (selectedConversation s) = true ->
  auth_getUser w = Some uid ->
  insert_conversation w uid
    (JsString.slice0 50 (JsString.trim (input s))) = inr c ->
  invoke_assistant w (request_of w s (Some (Conversation.id c))) = inl e ->
  exists s',
    sendMessage w s = (s', inr tt) /\
    messages s' = messages s /\
    conversations s' = c :: conversations s /\
    selectedConversation s' = Some (Conversation.id c).
Proof.
  intros Hacc Hfresh Hsel Hu Hins Hinv.
  pose proof (sendMessage_shape s Hacc) as Hshape. cbv zeta in Hshape.
  assert (Hconv : conversation_result w s = inr (Some (Conversation.id c))).
  { unfold conversation_result. rewrite Hsel, Hu, Hins. reflexivity. }
  rewrite Hconv, Hinv in Hshape. rewrite Hshape, after_catch_fields.
  rewrite (conversationIdToUse_creates w s (pending w s) _ uid c Hsel Hu Hins).
  unfold perform.
  eexists. split; [reflexivity|].
  cbn [fst pending conversations selectedConversation messages].
  split; [|split; reflexivity].
  apply filter_fresh; [exact Hfresh | reflexivity].
Qed.

(** Every accepted send empties the input, also when it fails. *)
Lemma sendMessage_accepted_input (s : Session) :
  accepted s -> input (fst (sendMessage w s)) = [].
Proof.
  intros Hacc.
  destruct (conversation_result w s) as [e|cid] eqn:Hconv.
  - pose proof (sendMessage_shape s Hacc) as Hshape. cbv zeta in Hshape.
    rewrite Hconv in Hshape. rewrite Hshape, after_catch_fields.
    cbn [fst input].
    destruct (conversationIdToUse_frame w s (pending w s)
                (JsString.trim (input s))) as (_ & Hin & _).
    exact Hin.
  - destruct (sendMessage_invokes s cid Hacc Hconv) as (s' & E & _ & _ & Hi & _).
    rewrite E. exact Hi.
Qed.

(** X17: the send button is disabled exactly in the states that
    [sendMessage] leaves untouched; in every other state a send empties
    the input, whatever its outcome, so the text of a failed send is not
    given back. *)
Theorem sendMessage_changes_iff_enabled (s : Session) :
  (sendDisabled s = true <-> sendMessage w s = (s, inr tt)) /\
  (sendDisabled s = false ->
     input s <> [] /\ input (fst (sendMessage w s)) = []).
Proof.
  assert (Hen : sendDisabled s = false ->
                input s <> [] /\ input (fst (sendMessage w s)) = []).
  { intros Hd. unfold sendDisabled in Hd. apply orb_false_iff in Hd.
    split; [|apply sendMessage_accepted_input; exact Hd].
    destruct Hd as [Hd _]. intros Hnil. rewrite Hnil in Hd. discriminate. }
  split; [|exact Hen].
  split.
  - intros Hd. apply sendMessage_rejected. exact Hd.
  - intros E. destruct (sendDisabled s) eqn:Hd; [reflexivity|].
    destruct (Hen eq_refl) as [Hne Hin]. rewrite E in Hin. cbn [fst] in Hin.
    contradiction.
Qed.

Lemma trimEnd_head (c : N) (r : jsstring) :
  JsString.is_white_space c = false ->
  JsString.trimEnd (c :: r) = c :: JsString.trimEnd r.
Proof.
  intros Hc. exact (JsStringFacts.trimEnd_keeps [] r c Hc).
Qed.

Lemma trim_trimmed (s : jsstring) : trimmed (JsString.trim s).
Proof.
  unfold JsString.trim. split.
  - intros c r E.
    destruct (JsString.trimStart s) as [|d t] eqn:Ed; [discriminate|].
    pose proof (JsStringFacts.trimStart_head _ _ _ Ed) as Hd.
    rewrite (trimEnd_head d t Hd) in E. injection E as <- _. exact Hd.
  - intros r c E. unfold JsString.trimEnd in E.
    apply (f_equal (@rev N)) in E.
    rewrite rev_involutive, rev_app_distr in E. cbn [rev app] in E.
    exact (JsStringFacts.trimStart_head _ _ _ E).
Qed.

(** X18: the text kept in the list and the text handed to the assistant
    by a successful send are the same: the input without the white space
    around it, never empty. *)
Theorem sendMessage_text_trimmed (s : Session) (response : jsstring) :
  accepted s -> fresh_for w s -> send_succeeds w s response ->
  exists s' cid,
    sendMessage w s = (s', inr tt) /\
    messages s' = messages s ++ [committed w s; reply w s response] /\
    invocations (trace s') = invocations (trace s) ++ [request_of w s cid] /\
    Message.content (committed w s) = body_message (request_of w s cid) /\
    Message.content (committed w s) <> [] /\
    trimmed (Message.content (committed w s)).
Proof.
  intros Hacc Hfresh Hok.
  destruct (sendMessage_success_run w s response Hacc Hfresh Hok)
    as (s' & E & Hm & _).
  destruct Hok as (cid & Hconv & _).
  destruct (sendMessage_invokes s cid Hacc Hconv)
    as (s'' & E' & _ & _ & _ & Hinv & _).
  rewrite E in E'. injection E' as <-.
  exists s', cid. split; [exact E|]. split; [exact Hm|]. split; [exact Hinv|].
  cbn [committed optimistic Message.with_id Message.content request_of
       invoke_body body_message].
  split; [reflexivity|]. split.
  - destruct Hacc as [Hne _]. intros Hnil. rewrite Hnil in Hne. discriminate.
  - apply trim_trimmed.
Qed.

End SendMoreFacts.

Module DisplayFacts.
Import JsString JsStringFacts ActionData ActionDataFacts.

(** X19: a response that holds no block (no two markers with a
    non-empty text free of line terminators between them) is displayed
    exactly as received; it is not even trimmed. *)
Theorem displayed_without_block (response : jsstring) :
  (forall pre g post, ~ block_at response pre g post) ->
  displayed response = response.
Proof.
  intros Hno. apply displayed_no_match.
  destruct (exec response) as [[[pre g] post]|] eqn:E; [|reflexivity].
  exfalso. exact (Hno pre g post (exec_sound _ _ _ _ E)).
Qed.

(** X20: when a response holds a block, what is displayed has no white
    space at either end. *)
Theorem displayed_with_block_trimmed (response pre g post : jsstring) :
  block_at response pre g post -> trimmed (displayed response).
Proof.
  intros Hb.
  destruct (exec response) as [[[pre' g'] post']|] eqn:E.
  - rewrite (displayed_match _ _ _ _ E). apply trim_trimmed.
  - exfalso. exact (exec_complete _ _ _ _ Hb E).
Qed.

End DisplayFacts.

(** ** Properties of the helpers of the admin pages *)

Module AdminFacts.
Import Admin.

#[local] Arguments JsString.lit : simpl never.

Lemma clamp_nat (n len : nat) : clamp (Z.of_nat n) len = Nat.min n len.
Proof. unfold clamp. lia. Qed.

Lemma clamp_back (len : nat) : clamp (Z.of_nat len - 4) len = len - 4.
Proof. unfold clamp. lia. Qed.

(** The two visible parts of the mask. *)
Lemma maskApiKey_parts (key : jsstring) :
  maskApiKey key =
  firstn 8 key ++ js "..." ++ skipn (List.length key - 4) key.
Proof.
  unfold maskApiKey, substring_from, substring.
  change 0%Z with (Z.of_nat 0). change 8%Z with (Z.of_nat 8).
  rewrite !clamp_nat, clamp_back.
  f_equal; [|f_equal].
  - match goal with
    | |- firstn ?n (skipn ?m _) = _ =>
        replace n with (Nat.min 8 (List.length key)) by lia;
        replace m with 0 by lia
    end.
    cbn [skipn].
    destruct (Nat.le_gt_cases 8 (List.length key)) as [H|H].
    + rewrite Nat.min_l by exact H. reflexivity.
    + rewrite Nat.min_r by lia. rewrite !firstn_all2 by lia. reflexivity.
  - match goal with
    | |- firstn ?n (skipn ?m _) = _ =>
        replace n with (List.length key - (List.length key - 4)) by lia;
        replace m with (List.length key - 4) by lia
    end.
    apply firstn_all2. rewrite length_skipn. lia.
Qed.

(** X21: of a key that has 8 code units, then any text, then 4 code
    units, [maskApiKey] shows the 8, three dots and the 4: the text
    between, and its length, do not show. *)
Theorem maskApiKey_hides_middle (a mid b : jsstring) :
  List.length a = 8 -> List.length b = 4 ->
  maskApiKey (a ++ mid ++ b) = a ++ js "..." ++ b.
Proof.
  intros Ha Hb. rewrite maskApiKey_parts. f_equal; [|f_equal].
  - rewrite firstn_app, Ha. replace (8 - 8) with 0 by lia.
    rewrite firstn_O, app_nil_r. apply firstn_all2. lia.
  - rewrite app_assoc, length_app, Hb.
    replace (List.length (a ++ mid) + 4 - 4) with (List.length (a ++ mid)) by lia.
    rewrite skipn_app, Nat.sub_diag, skipn_all. reflexivity.
Qed.

(** X22: of a key of at most 12 code units [maskApiKey] hides nothing:
    the key is the part shown before the dots followed by the end of the
    part shown after them. *)
Theorem maskApiKey_short_key (key : jsstring) :
  List.length key <= 12 ->
  exists a b,
    maskApiKey key = a ++ js "..." ++ b /\
    key = a ++ skipn (12 - List.length key) b.
Proof.
  intros Hlen. exists (firstn 8 key), (skipn (List.length key - 4) key).
  split; [apply maskApiKey_parts|].
  rewrite skipn_skipn.
  destruct (Nat.le_gt_cases 4 (List.length key)) as [H4|H4].
  - replace (12 - List.length key + (List.length key - 4)) with 8 by lia.
    symmetry. apply firstn_skipn.
  - rewrite (skipn_all2 key) by lia. rewrite app_nil_r.
    symmetry. apply firstn_all2. lia.
Qed.

(** X23: the icon and the badge colour of an activity always go
    together: both take the first of create, update, delete, error that
    the action contains, and the neutral ones when it contains none. *)
Theorem icon_matches_colour (action : jsstring) :
  colour_of_icon (getActionIcon action) = getActionColor action.
Proof.
  unfold getActionIcon, getActionColor, icons. cbn [find fst].
  destruct (includes action (js "create")); [reflexivity|].
  destruct (includes action (js "update")); [reflexivity|].
  destruct (includes action (js "delete")); [reflexivity|].
  destruct (includes action (js "error")); reflexivity.
Qed.

End AdminFacts.

Section InvariantFacts.

Variable w : World.

#[local] Arguments JsString.lit : simpl never.

(** X24: a message list without temporary identifiers stays so under
    every handler: a send, whatever its outcome, a deletion, a new
    conversation, and, when the rows of the backend carry no such
    identifier, a read of the messages or a click in the history.  No
    [temp-] identifier outlives the send that made it. *)
Theorem handlers_keep_no_temp_ids (s : Session) (cid : jsstring) :
  no_temp_ids s ->
  no_temp_ids (fst (sendMessage w s)) /\
  no_temp_ids (fst (deleteConversation w cid s)) /\
  no_temp_ids (fst (createNewConversation w s)) /\
  (Forall (fun m => is_temp_id (Message.id m) = false)
     (rows (select_messages w cid)) ->
   no_temp_ids (fst (loadMessages w cid s)) /\
   no_temp_ids (fst (onSelectConversation w cid s))).
Proof.
  intros Hs. split; [apply sendMessage_keeps_no_temp_ids; exact Hs|].
  split; [|split].
  - destruct (delete_conversation w cid) as [e|] eqn:Hdel.
    + rewrite (deleteConversation_failure_run w s cid e Hdel). exact Hs.
    + rewrite (deleteConversation_run w s cid Hdel).
      unfold no_temp_ids. cbn [fst messages].
      destruct (id_is (selectedConversation s) cid); [constructor | exact Hs].
  - unfold no_temp_ids in *. destruct s as [cs sel ms inp ld sh lc tr tk].
    cbn [messages] in Hs. unfold createNewConversation. run_handler.
    destruct (auth_getUser w) as [uid|]; run_handler; [|exact Hs].
    destruct (insert_conversation w uid (js "New Conversation")) as [e|c];
      run_handler; [exact Hs | constructor].
  - intros Hrows. split.
    + rewrite loadMessages_run. unfold no_temp_ids. cbn [fst messages].
      destruct (error (select_messages w cid)); [exact Hs | exact Hrows].
    + unfold no_temp_ids in *. destruct s as [cs sel ms inp ld sh lc tr tk].
      cbn [messages] in Hs.
      unfold onSelectConversation, loadMessages_settle, setShowHistory.
      run_handler. unfold rows in Hrows.
      destruct (select_messages w cid) as [d [e|]];
        cbv beta iota zeta delta [error data rows] in *; run_handler;
        [exact Hs | exact Hrows].
Qed.

End InvariantFacts.

Section ComposeFacts.

Variable w : World.

#[local] Arguments JsString.lit : simpl never.
#[local] Arguments JsString.trim : simpl never.
#[local] Arguments JsString.slice0 : simpl never.

(** X25: a send repeated on the state the first one left does nothing,
    in whatever world: the first either was rejected, and is rejected
    again, or emptied the input. *)
Theorem sendMessage_repeated (w' : World) (s : Session) :
  sendMessage w' (fst (sendMessage w s)) = (fst (sendMessage w s), inr tt).
Proof.
  destruct (sendDisabled s) eqn:Hd.
  - rewrite (sendMessage_rejected w s Hd). cbn [fst].
    apply sendMessage_rejected. exact Hd.
  - unfold sendDisabled in Hd. apply orb_false_iff in Hd.
    apply sendMessage_rejected.
    rewrite (sendMessage_accepted_input w s Hd). reflexivity.
Qed.

(** X26: after the selected conversation has been deleted, the next
    accepted send starts a new one: it asks for a conversation titled
    with the first 50 characters of the text, puts the row at the head of
    what is left of the list and selects it. *)
Theorem sendMessage_after_delete (s : Session) (cid uid : jsstring)
    (c : Conversation.t) :
  delete_conversation w cid = None ->
  selectedConversation s = Some cid ->
  accepted s ->
  auth_getUser w = Some uid ->
  insert_conversation w uid
    (JsString.slice0 50 (JsString.trim (input s))) = inr c ->
  exists s2,
    sendMessage w (fst (deleteConversation w cid s)) = (s2, inr tt) /\
    conversations s2 =
      c :: filter (fun x => negb (JsString.eqb (Conversation.id x) cid))
             (conversations s) /\
    selectedConversation s2 = Some (Conversation.id c) /\
    In (InsertConversation uid (JsString.slice0 50 (JsString.trim (input s))))
       (trace s2).
Proof.
  intros Hdel Hsel Hacc Hu Hins.
  rewrite (deleteConversation_run w s cid Hdel). cbn [fst].
  rewrite Hsel. cbn [id_is]. rewrite JsStringFacts.eqb_refl.
  set (s1 := MkSession _ None [] (input s) (loading s) _ _ _ _).
  assert (Hacc1 : accepted s1) by exact Hacc.
  assert (Hconv : conversation_result w s1 = inr (Some (Conversation.id c))).
  { unfold conversation_result. cbn [s1 selectedConversation no_id input].
    rewrite Hu, Hins. reflexivity. }
  destruct (sendMessage_invokes w s1 _ Hacc1 Hconv)
    as (s2 & E & Hc & Hs & _ & _ & rest & Ht & _).
  rewrite (conversationIdToUse_creates w s1 (pending w s1)
             (JsString.trim (input s1)) uid c eq_refl Hu Hins) in Hc, Hs, Ht.
  cbn [fst s1 pending conversations selectedConversation trace input] in Hc, Hs, Ht.
  exists s2. split; [exact E|]. split; [exact Hc|]. split; [exact Hs|].
  rewrite Ht. apply in_or_app. left. apply in_or_app. right.
  right. left. reflexivity.
Qed.

End ComposeFacts.

(** ** The further properties at concrete sessions *)

Module MoreScenarioFacts.
Import Scenario MoreScenario.

Lemma s_first_accepted : accepted s_first.
Proof. split; reflexivity. Defined.

Lemma s_first_fresh (w : World) : fresh_for w s_first.
Proof. constructor. Defined.

Lemma s_hello_no_temp : no_temp_ids s_hello.
Proof. constructor; [reflexivity | constructor]. Defined.

Lemma loadConversations_signed_out_witness :
  loadConversations w_signed_out initial =
  (MkSession [] None [] [] false false false [AuthGetUser] 0, inr tt).
Proof. exact (loadConversations_signed_out w_signed_out initial eq_refl). Defined.

Lemma createNewConversation_success_witness :
  createNewConversation w_ok s_hello =
  (MkSession
     [Conversation.mk (js "C") (js "New Conversation") (js "10:05");
      convA; convB]
     (Some (js "C")) [] [] false false false
     [AuthGetUser; InsertConversation (js "u1") (js "New Conversation")] 0,
   inr tt).
Proof.
  exact (createNewConversation_success w_ok s_hello (js "u1")
           (Conversation.mk (js "C") (js "New Conversation") (js "10:05"))
           eq_refl eq_refl).
Defined.

Lemma createNewConversation_failure_witness :
  toasts (trace (fst (createNewConversation w_down s_hello))) =
    [MkToast (js "Error") (js "Failed to create new conversation")
       (Some (js "destructive"))] /\
  conversations (fst (createNewConversation w_down s_hello)) = [convA; convB] /\
  input (fst (createNewConversation w_down s_hello)) = js " hello ".
Proof.
  rewrite (createNewConversation_failure w_down s_hello (js "u1") failure
             eq_refl eq_refl).
  repeat split; reflexivity.
Defined.

Lemma createNewConversation_signed_out_witness :
  createNewConversation w_signed_out s_hello =
  (MkSession [convA; convB] (Some (js "B")) [earlier] (js " hello ")
     false false false [AuthGetUser] 0,
   inr tt).
Proof. exact (createNewConversation_signed_out w_signed_out s_hello eq_refl). Defined.

Lemma deleteConversation_failure_witness :
  exists s',
    deleteConversation w_down (js "B") s_hello = (s', inr tt) /\
    conversations s' = [convA; convB] /\
    selectedConversation s' = Some (js "B") /\
    messages s' = [earlier].
Proof.
  destruct (deleteConversation_failure w_down s_hello (js "B") failure eq_refl)
    as (s' & E & Hc & Hs & Hm & _).
  exists s'. repeat split; assumption.
Defined.

Lemma deleteConversation_twice_witness :
  conversations
    (fst (deleteConversation w_ok (js "B")
            (fst (deleteConversation w_ok (js "B") s_hello)))) =
  conversations (fst (deleteConversation w_ok (js "B") s_hello)).
Proof.
  exact (proj1 (deleteConversation_twice w_ok s_hello (js "B") eq_refl)).
Defined.

Lemma checkAuth_effect_witness :
  checkAuth w_signed_out initial =
    (MkSession [] None [] [] false false true [AuthGetUser] 0,
     inr (Some (js "/auth"))) /\
  snd (checkAuth w_ok initial) = inr None.
Proof.
  split.
  - exact (proj1 (checkAuth_effect w_signed_out initial) eq_refl).
  - assert (H : auth_getUser w_ok <> None) by discriminate.
    rewrite (proj2 (checkAuth_effect w_ok initial) H). reflexivity.
Defined.

Lemma sendMessage_request_witness :
  exists s',
    sendMessage w_ok s_hello = (s', inr tt) /\
    invocations (trace s') =
      [MkBody (js "hello") (Some (js "B")) [(assistant, js "Welcome")]].
Proof.
  exact (sendMessage_request w_ok s_hello (Some (js "B"))
           ScenarioFacts.s_hello_accepted (ScenarioFacts.s_hello_fresh w_ok)
           eq_refl).
Defined.

Lemma sendMessage_selected_witness :
  exists s',
    sendMessage w_down s_hello = (s', inr tt) /\
    conversations s' = [convA; convB] /\
    selectedConversation s' = Some (js "B") /\
    filter is_backend_request (trace s') = [].
Proof.
  destruct (sendMessage_selected w_down s_hello
              ScenarioFacts.s_hello_accepted eq_refl)
    as (s' & E & Hc & Hs & Hf & _).
  exists s'. repeat split; assumption.
Defined.

Lemma sendMessage_creation_failure_witness :
  exists s',
    sendMessage w_signed_out s_first = (s', inr tt) /\
    invocations (trace s') = [] /\
    conversations s' = [] /\
    selectedConversation s' = None /\
    toasts (trace s') =
      [MkToast (js "Error") (js "User not authenticated")
         (Some (js "destructive"))].
Proof.
  exact (sendMessage_creation_failure w_signed_out s_first
           (Error (Some (js "User not authenticated")))
           s_first_accepted eq_refl).
Defined.

Lemma sendMessage_rollback_keeps_conversation_witness :
  exists s',
    sendMessage w_half s_first = (s', inr tt) /\
    messages s' = [] /\
    conversations s' = [convC] /\
    selectedConversation s' = Some (js "C").
Proof.
  exact (sendMessage_rollback_keeps_conversation w_half s_first (js "u1")
           convC failure s_first_accepted (s_first_fresh w_half)
           eq_refl eq_refl eq_refl eq_refl).
Defined.

Lemma sendMessage_changes_iff_enabled_witness :
  sendMessage w_ok s_blank = (s_blank, inr tt) /\
  input (fst (sendMessage w_down s_hello)) = [].
Proof.
  split.
  - apply (proj1 (sendMessage_changes_iff_enabled w_ok s_blank)). reflexivity.
  - apply (proj2 (sendMessage_changes_iff_enabled w_down s_hello)). reflexivity.
Defined.

Lemma sendMessage_text_trimmed_witness :
  exists s' cid,
    sendMessage w_ok s_hello = (s', inr tt) /\
    Message.content (committed w_ok s_hello) =
      body_message (request_of w_ok s_hello cid) /\
    trimmed (Message.content (committed w_ok s_hello)).
Proof.
  destruct (sendMessage_text_trimmed w_ok s_hello scenario_response
              ScenarioFacts.s_hello_accepted (ScenarioFacts.s_hello_fresh w_ok)
              ScenarioFacts.s_hello_succeeds)
    as (s' & cid & E & _ & _ & Hc & _ & Ht).
  exists s', cid. repeat split; try assumption; apply Ht.
Defined.

Lemma two_lines_no_block (pre g post : jsstring) :
  ~ ActionData.block_at two_lines pre g post.
Proof.
  intros Hb. apply (ActionDataFacts.exec_complete _ _ _ _ Hb).
  vm_compute. reflexivity.
Defined.

Lemma displayed_without_block_witness :
  ActionData.displayed two_lines = two_lines.
Proof.
  exact (DisplayFacts.displayed_without_block two_lines two_lines_no_block).
Defined.

Lemma displayed_with_block_trimmed_witness :
  trimmed (ActionData.displayed two_blocks).
Proof.
  apply (DisplayFacts.displayed_with_block_trimmed two_blocks (js "A") (js "x")
           (js " B__ACTION_DATA__y__ACTION_DATA__C__ACTION_DATA__")).
  split; [reflexivity|]. split; [discriminate|].
  constructor; [reflexivity | constructor].
Defined.

Lemma maskApiKey_hides_middle_witness :
  Admin.maskApiKey (js "sk-live-" ++ js "0123456789abcdef" ++ js "wxyz") =
  js "sk-live-" ++ js "..." ++ js "wxyz".
Proof.
  exact (AdminFacts.maskApiKey_hides_middle (js "sk-live-")
           (js "0123456789abcdef") (js "wxyz") eq_refl eq_refl).
Defined.

Lemma maskApiKey_short_key_witness :
  exists a b,
    Admin.maskApiKey (js "abc") = a ++ js "..." ++ b /\
    js "abc" = a ++ skipn (12 - List.length (js "abc")) b.
Proof.
  apply AdminFacts.maskApiKey_short_key. cbn. lia.
Defined.

Lemma handlers_keep_no_temp_ids_witness :
  no_temp_ids (fst (sendMessage w_ok s_hello)) /\
  no_temp_ids (fst (deleteConversation w_ok (js "B") s_hello)) /\
  no_temp_ids (fst (createNewConversation w_ok s_hello)).
Proof.
  destruct (handlers_keep_no_temp_ids w_ok s_hello (js "B") s_hello_no_temp)
    as (H1 & H2 & H3 & _).
  repeat split; assumption.
Defined.

(** A key of three code units shows twice, whole, around the dots. *)
Example maskApiKey_abc :
  Admin.maskApiKey (js "abc") = js "abc...abc".
Proof. vm_compute. reflexivity. Qed.

Lemma sendMessage_after_delete_witness :
  exists s2,
    sendMessage w_ok (fst (deleteConversation w_ok (js "B") s_hello)) =
      (s2, inr tt) /\
    conversations s2 = [convC; convA] /\
    selectedConversation s2 = Some (js "C").
Proof.
  destruct (sendMessage_after_delete w_ok s_hello (js "B") (js "u1") convC
              eq_refl eq_refl ScenarioFacts.s_hello_accepted eq_refl eq_refl)
    as (s2 & E & Hc & Hs & _).
  exists s2. repeat split; assumption.
Defined.

End MoreScenarioFacts.

(** ** Handlers and the render that calls them *)

Section ClosureFacts.

Variable w : World.

#[local] Arguments JsString.lit : simpl never.
#[local] Arguments JsString.trim : simpl never.
#[local] Arguments JsString.of_Z : simpl never.
#[local] Arguments ActionData.displayed : simpl never.



Lemma loadConversations_is_in (s : Session) :
  loadConversations w s = loadConversations_in w s s.
Proof. reflexivity. Qed.





(** X3: when the read succeeds and no row comes back, the conversation
    list becomes empty and nothing else happens, from whatever render
    the load was called: the selection and the messages stay, and no
    messages are requested. *)
Theorem loadConversations_no_rows (snap s : Session) (uid : jsstring) :
  auth_getUser w = Some uid ->
  error (select_conversations w uid) = None ->
  rows (select_conversations w uid) = [] ->
  loadConversations_in w snap s =
  (MkSession [] (selectedConversation s) (messages s) (input s) (loading s)
     (showHistory s) false
     (trace s ++ [AuthGetUser; SelectConversations uid]) (ticks s),
   inr tt).
Proof.
  intros Hu He Hrows. destruct s as [cs sel ms inp ld sh lc tr tk].
  unfold loadConversations_in. run_handler. rewrite Hu. run_handler.
  destruct (select_conversations w uid) as [d e]. cbn [error] in He. subst e.
  unfold rows in Hrows. cbn [data] in Hrows.
  cbv beta iota zeta delta [error data rows]. run_handler.
  destruct d as [[|c cs']|]; [| discriminate |]; run_handler;
    rewrite <- !app_assoc; reflexivity.
Qed.

(** X27: the load started at mount reads the selection of the render at
    mount, where nothing is selected: when rows come back it selects the
    head of the list and requests its messages whatever is selected by
    then, and shows them when that read succeeds. *)
Theorem loadConversations_mount_selects_head (snap s : Session)
    (uid : jsstring) (c : Conversation.t) (cs : list Conversation.t) :
  selectedConversation snap = None ->
  auth_getUser w = Some uid ->
  select_conversations w uid = Reply (Some (c :: cs)) None ->
  exists s',
    loadConversations_in w snap s = (s', inr tt) /\
    conversations s' = c :: cs /\
    selectedConversation s' = Some (Conversation.id c) /\
    In (SelectMessages (Conversation.id c)) (trace s') /\
    (error (select_messages w (Conversation.id c)) = None ->
       messages s' = rows (select_messages w (Conversation.id c))) /\
    (error (select_messages w (Conversation.id c)) <> None ->
       messages s' = messages s).
Proof.
  intros Hnone Hu Hsel. destruct s as [cs0 sel ms inp ld sh lc tr tk].
  destruct snap as [cs1 sel1 ms1 inp1 ld1 sh1 lc1 tr1 tk1].
  cbn [selectedConversation] in Hnone. subst sel1.
  unfold loadConversations_in, loadMessages_settle. run_handler.
  rewrite Hu. run_handler. rewrite Hsel.
  cbv beta iota zeta delta [error data rows no_id]. run_handler.
  destruct (select_messages w (Conversation.id c)) as [d [e|]]; run_handler;
    (eexists; split; [reflexivity|]);
    cbn [conversations selectedConversation messages trace];
    (split; [reflexivity|]); (split; [reflexivity|]); split.
  - rewrite <- ?app_assoc. apply in_or_app. right. cbn [app In]. tauto.
  - split; [discriminate | reflexivity].
  - rewrite <- ?app_assoc. apply in_or_app. right. cbn [app In]. tauto.
  - split; [reflexivity | congruence].
Qed.

End ClosureFacts.

Module ClosureScenarioFacts.
Import Scenario ClosureScenario.






(** The assistant message of that send keeps the second block and the
    last marker. *)
Example two_blocks_sent :
  map Message.content (messages (fst (sendMessage w_two s_hello))) =
  [js "Welcome"; js "hello";
   js "A B__ACTION_DATA__y__ACTION_DATA__C__ACTION_DATA__"].
Proof. vm_compute. reflexivity. Qed.

Lemma loadConversations_no_rows_witness :
  loadConversations_in w_empty initial s_hello =
  (MkSession [] (Some (js "B")) [earlier] (js " hello ") false false false
     [AuthGetUser; SelectConversations (js "u1")] 0,
   inr tt).
Proof.
  exact (loadConversations_no_rows w_empty initial s_hello (js "u1")
           eq_refl eq_refl eq_refl).
Defined.

Lemma loadConversations_mount_selects_head_witness :
  exists s',
    loadConversations_in w_ok initial s_hello = (s', inr tt) /\
    selectedConversation s_hello = Some (js "B") /\
    selectedConversation s' = Some (js "A") /\
    messages s' = [earlier].
Proof.
  destruct (loadConversations_mount_selects_head w_ok initial s_hello (js "u1")
              convA [convB] eq_refl eq_refl eq_refl)
    as (s' & E & _ & Hs & _ & Hm & _).
  exists s'. split; [exact E|]. split; [reflexivity|]. split; [exact Hs|].
  exact (Hm eq_refl).
Defined.

End ClosureScenarioFacts.
